(** * AsInterface: retrofitting classes of an isolated class loader with
      caller-side interfaces

    A shallow embedding of [io.treeverse.utils.AsInterface] (the ASM class
    visitor of the lakeFS Spark metadata client), of the classes [B] and [C]
    of the design note "Loading rocksdbjni twice" together with the JVM
    listings the note gives for them, and of the loading context the note
    describes.  Java strings are [string]s, JVM [int]s are [Z] with the
    wrap-around written out, arrays that ASM documents as nullable are
    [option (list _)], and exceptions are an explicit result type. *)

From Stdlib Require Import ZArith Ascii String List Lia.
From stdpp Require Import base option list strings gmap.

Open Scope string_scope.
Open Scope list_scope.

(** ** Java exceptions as results *)

Module Java.

Inductive Throwable :=
| NullPointerException
| IllegalArgumentException
| IndexOutOfBoundsException
| ClassCastException
| NoSuchMethodError.

Inductive result (A : Type) :=
| Ok (a : A)
| Throw (e : Throwable).
Arguments Ok {A} a.
Arguments Throw {A} e.

Definition bind {A B} (r : result A) (k : A -> result B) : result B :=
  match r with
  | Ok a => k a
  | Throw e => Throw e
  end.

(** [java.lang.Class], restricted to classes and interfaces (reference
    types that are neither primitive nor arrays): all that [AsInterface]
    asks of [iface] is its binary name. *)
Record Class := { getName : string }.

(** [String.replaceAll("\\.", "/")]: the pattern matches exactly one
    dot and the replacement has no group reference. *)
Fixpoint replaceAll_dot_slash (s : string) : string :=
  match s with
  | "" => ""
  | String c t =>
      String (if Ascii.eqb c "." then "/"%char else c) (replaceAll_dot_slash t)
  end.

End Java.

Import Java.

#[global] Instance result_ret : MRet result := @Ok.
#[global] Instance result_bind : MBind result := fun A B k r => bind r k.

(** ** [scala.util.matching.Regex] for a pattern with one capture group

    A compiled pattern is the function that tries it at the head of a
    text. *)

Module Regex.

Definition inRange (lo hi : nat) (c : ascii) : bool :=
  (lo <=? nat_of_ascii c)%nat && (nat_of_ascii c <=? hi)%nat.

Definition isDigit (c : ascii) : bool := inRange 48 57 c.

(** The character class [[a-zA-Z_0-9/]] of [descReturnType]. *)
Definition isNameChar (c : ascii) : bool :=
  inRange 97 122 c || inRange 65 90 c || Ascii.eqb c "_"
  || inRange 48 57 c || Ascii.eqb c "/".

(** The longest run of class characters at the head of [s], and what
    follows it.  The quantifier [+] is greedy and the character after the
    group, [;], is outside the class, so backtracking into the run never
    produces a match the longest run does not. *)
Fixpoint spanName (s : string) : string * string :=
  match s with
  | "" => ("", "")
  | String c t =>
      if isNameChar c
      then let '(nm, rest) := spanName t in (String c nm, rest)
      else ("", s)
  end.

(** What a match exposes: the matched text and capture group 1. *)
Record Match := { matched : string; group1 : string }.

(** The patterns here have one capture group and no named group. *)
Definition groupCount : nat := 1.

Definition digitValue (c : ascii) : nat := nat_of_ascii c - 48.

Definition group (m : Match) (refNum : nat) : result string :=
  match refNum with
  | 0 => Ok (matched m)
  | 1 => Ok (group1 m)
  | _ => Throw IndexOutOfBoundsException
  end.

(** [java.util.regex.Matcher.appendReplacement] on the replacement text:
    a backslash quotes the next character, [$] starts a group reference
    ([${name}] is always refused here, the pattern has no named group;
    after the first digit further digits are taken while the number stays
    a group of the pattern).  [pending] is the group number read so far. *)
Fixpoint expand (m : Match) (pending : option nat) (r : string) : result string :=
  let flush (k : result string) : result string :=
    match pending with
    | None => k
    | Some refNum => g ← group m refNum; tl ← k; Ok (g +:+ tl)
    end in
  match r with
  | "" => flush (Ok "")
  | String c t =>
      let plain : result string :=
        if Ascii.eqb c "\" then
          match t with
          | "" => Throw IllegalArgumentException
          | String q t' => tl ← expand m None t'; Ok (String q tl)
          end
        else if Ascii.eqb c "$" then
          match t with
          | "" => Throw IllegalArgumentException
          | String d t' =>
              if isDigit d then expand m (Some (digitValue d)) t'
              else Throw IllegalArgumentException
          end
        else tl ← expand m None t; Ok (String c tl) in
      match pending with
      | Some refNum =>
          if isDigit c && (refNum * 10 + digitValue c <=? groupCount)%nat
          then expand m (Some (refNum * 10 + digitValue c)) t
          else flush plain
      | None => plain
      end
  end.

(** A replacement text without backslash and dollar sign. *)
Fixpoint isLiteral (r : string) : bool :=
  match r with
  | "" => true
  | String c t => negb (Ascii.eqb c "\") && negb (Ascii.eqb c "$") && isLiteral t
  end.

(** A text made of characters of the class only. *)
Fixpoint isName (s : string) : bool :=
  match s with
  | "" => true
  | String c t => isNameChar c && isName t
  end.

(** Whether a text begins with a semicolon. *)
Definition startsSemicolon (r : string) : bool :=
  match r with
  | String e _ => Ascii.eqb e ";"
  | "" => false
  end.

Definition appendReplacement (m : Match) (replacement : string) : result string :=
  expand m None replacement.

(** [pattern.replaceAllIn(target, replacer)]: every match, found from
    left to right and never overlapping, is replaced by the expansion of
    what [replacer] returns for it.  [skip] counts the characters of the
    last match that are still to be passed over. *)
Fixpoint replaceAllIn_from (pattern : string -> option Match)
    (replacer : Match -> string) (skip : nat) (s : string) : result string :=
  match s with
  | "" => Ok ""
  | String c t =>
      match skip with
      | S k => replaceAllIn_from pattern replacer k t
      | O =>
          match pattern s with
          | Some m =>
              r ← appendReplacement m (replacer m);
              tl ← replaceAllIn_from pattern replacer (String.length (matched m) - 1) t;
              Ok (r +:+ tl)
          | None => tl ← replaceAllIn_from pattern replacer 0 t; Ok (String c tl)
          end
      end
  end.

Definition replaceAllIn (pattern : string -> option Match) (target : string)
    (replacer : Match -> string) : result string :=
  replaceAllIn_from pattern replacer 0 target.

End Regex.

(** ** Classes as ASM presents them *)

Module Asm.

(** The instructions of the listings of the design note (aload, bipush,
    checkcast, invokevirtual, ireturn) and the few more that the bodies
    of [B.a] and of the Scala original of [C.x] compile to. *)
Inductive insn :=
| Aload (n : nat)
| Iload (n : nat)
| Bipush (b : Z)
| Imul
| Getfield (owner name : string)
| Putfield (owner name : string)
| Checkcast (internalName : string)
| Invokevirtual (owner name desc : string)
| Ireturn
| Areturn
| Return.

(** The arguments of one [ClassVisitor.visit] call.  ASM documents
    [signature], [superName] and [interfaces] as nullable. *)
Record VisitCall := {
  v_version : Z;
  v_access : Z;
  v_name : string;
  v_signature : option string;
  v_superName : option string;
  v_interfaces : option (list string)
}.

(** The arguments of one [ClassVisitor.visitMethod] call. *)
Record VisitMethodCall := {
  vm_access : Z;
  vm_name : string;
  vm_desc : string;
  vm_signature : option string;
  vm_exceptions : option (list string)
}.

(** A method of a class file: its declaration and the instructions that
    [ClassReader] feeds to the method visitor it was given. *)
Record MethodNode := {
  m_access : Z;
  m_name : string;
  m_desc : string;
  m_signature : option string;
  m_exceptions : option (list string);
  m_code : list insn
}.

(** A class file, as far as [AsInterface] looks at it.  [ClassReader]
    always builds the interface array, so it is a list here. *)
Record ClassNode := {
  c_version : Z;
  c_access : Z;
  c_name : string;
  c_signature : option string;
  c_superName : option string;
  c_interfaces : list string;
  c_methods : list MethodNode
}.

(** The text of a method descriptor before its closing parenthesis:
    the opening parenthesis and the parameter types. *)
Fixpoint parameterPart (desc : string) : string :=
  match desc with
  | "" => ""
  | String c t => if Ascii.eqb c ")" then "" else String c (parameterPart t)
  end.

(** ** Where a class is named in the parameters of a method *)






End Asm.

Import Asm.

(** ** [private class AsInterface(cv: ClassVisitor, iface: Class[_])] *)

Module AsInterface.

(** [Type.getType(iface).getInternalName] of a class or interface. *)
Definition Type_getInternalName (c : Class) : string :=
  replaceAll_dot_slash (getName c).

(** [val descReturnType], the pattern [\)L([a-zA-Z_0-9/]+);], tried at
    the head of [s]: a closing parenthesis, [L], the longest run of class
    characters, which must not be empty, and a semicolon. *)
Definition descReturnType (s : string) : option Regex.Match :=
  match s with
  | String c (String d t) =>
      if Ascii.eqb c ")" && Ascii.eqb d "L" then
        match Regex.spanName t with
        | (String n nm, String e _) =>
            if Ascii.eqb e ";"
            then Some {| Regex.matched := ")L" +:+ String n nm +:+ ";";
                         Regex.group1 := String n nm |}
            else None
        | _ => None
        end
      else None
  | _ => None
  end.

Section Visitor.

Variable iface : Class.

(** [visit]: the result is the call made on [cv].  [interfaces :+ _]
    on a null array raises. *)
Definition visit (version access : Z) (name : string)
    (signature superName : option string) (interfaces : option (list string))
  : result VisitCall :=
  match interfaces with
  | None => Throw NullPointerException
  | Some ifs =>
      let newInterfaces := ifs ++ [Type_getInternalName iface] in
      Ok {| v_version := version; v_access := access; v_name := name;
            v_signature := signature; v_superName := superName;
            v_interfaces := Some newInterfaces |}
  end.

Definition translateDesc (desc : string) : result string :=
  Regex.replaceAllIn descReturnType desc
    (fun _ => ")L" +:+ replaceAll_dot_slash (getName iface) +:+ ";").

Definition show (s : option string) : string := default "null" s.

(** [visitMethod]: the line printed on [Console.out] and the call made
    on [cv].  The method visitor that [cv] hands back is returned as it
    is, so whatever code is fed to it reaches [cv] unchanged. *)
Definition visitMethod (access : Z) (name desc : string)
    (signature : option string) (exceptions : option (list string))
  : string * result VisitMethodCall :=
  ("[DEBUG] name " +:+ name +:+ " desc " +:+ desc +:+ " signature " +:+ show signature,
   desc' ← translateDesc desc;
   Ok {| vm_access := access; vm_name := name; vm_desc := desc';
         vm_signature := signature; vm_exceptions := exceptions |}).

(** [ClassReader.accept(new AsInterface(cv, iface))] with a collecting
    [cv]: one [visit] for the header, then one [visitMethod] per method
    in table order, the code of each method going to the visitor
    returned for it.  An exception ends the traversal. *)
Definition acceptMethod (m : MethodNode) : result (string * MethodNode) :=
  let '(line, call) :=
    visitMethod (m_access m) (m_name m) (m_desc m) (m_signature m) (m_exceptions m) in
  c ← call;
  Ok (line, {| m_access := vm_access c; m_name := vm_name c; m_desc := vm_desc c;
               m_signature := vm_signature c; m_exceptions := vm_exceptions c;
               m_code := m_code m |}).

Fixpoint acceptMethods (ms : list MethodNode) : result (list string * list MethodNode) :=
  match ms with
  | [] => Ok ([], [])
  | m :: ms' =>
      '(line, m') ← acceptMethod m;
      '(lines, ms'') ← acceptMethods ms';
      Ok (line :: lines, m' :: ms'')
  end.

Definition accept (c : ClassNode) : result (list string * ClassNode) :=
  h ← visit (c_version c) (c_access c) (c_name c) (c_signature c) (c_superName c)
            (Some (c_interfaces c));
  '(lines, ms) ← acceptMethods (c_methods c);
  Ok (lines, {| c_version := v_version h; c_access := v_access h; c_name := v_name h;
                c_signature := v_signature h; c_superName := v_superName h;
                c_interfaces := default [] (v_interfaces h);
                c_methods := ms |}).

End Visitor.

End AsInterface.

(** ** Running the listings: a fragment of the JVM *)

Module Jvm.

Inductive value :=
| VInt (z : Z)
| VRef (a : nat)
| VNull.

Record Obj := { o_class : string; o_fields : gmap string value }.

Inductive outcome :=
| Normal (v : option value)
| Thrown (e : Throwable)
| Stuck
| OutOfFuel.

(** [int] arithmetic is modulo 2^32, in two's complement. *)
Definition wrap32 (z : Z) : Z := ((z + 2 ^ 31) mod 2 ^ 32 - 2 ^ 31)%Z.

(** Number of parameters of a method descriptor.  [int]-like and
    reference parameters take one local each; [long], [double] and
    [float] are outside the fragment. *)
Fixpoint countParams (inName : bool) (s : string) : option nat :=
  match s with
  | "" => None
  | String c t =>
      if inName then
        if Ascii.eqb c ";" then S <$> countParams false t else countParams true t
      else if Ascii.eqb c ")" then Some 0
      else if Ascii.eqb c "L" then countParams true t
      else if Ascii.eqb c "[" then countParams false t
      else if existsb (Ascii.eqb c) ["I"; "B"; "C"; "S"; "Z"]%char
           then S <$> countParams false t
      else None
  end.

Definition paramCount (desc : string) : option nat :=
  match desc with
  | String "(" t => countParams false t
  | _ => None
  end.

Section Machine.

(** The loaded classes, by internal name. *)
Variable ct : gmap string ClassNode.

(** [cls] is [target], or extends or implements it. *)
Fixpoint isInstance (fuel : nat) (cls target : string) : bool :=
  String.eqb cls target ||
  match fuel with
  | 0 => false
  | S f =>
      match ct !! cls with
      | None => false
      | Some c =>
          match c_superName c with
          | Some s => isInstance f s target
          | None => false
          end
          || existsb (fun i => isInstance f i target) (c_interfaces c)
      end
  end.

(** A hierarchy without cycles is no deeper than the table is large. *)
Definition instanceOf (cls target : string) : bool :=
  isInstance (size ct) cls target.

Definition findMethod (ms : list MethodNode) (name desc : string) : option MethodNode :=
  List.find (fun m => String.eqb (m_name m) name && String.eqb (m_desc m) desc) ms.

(** Method selection of [invokevirtual]: the receiver's class, then
    its superclasses. *)
Fixpoint selectMethod (fuel : nat) (cls name desc : string) : option MethodNode :=
  match ct !! cls with
  | None => None
  | Some c =>
      match findMethod (c_methods c) name desc with
      | Some m => Some m
      | None =>
          match fuel, c_superName c with
          | S f, Some s => selectMethod f s name desc
          | _, _ => None
          end
      end
  end.

Section Exec.

(** How a call is carried out: heap, receiver, name, descriptor and
    arguments to the heap afterwards and the way the call ended. *)
Variable call : gmap nat Obj -> value -> string -> string -> list value
                -> gmap nat Obj * outcome.

(** Straight-line code; nothing in the fragment catches, so a
    throwable ends the frame and goes to the caller. *)
Fixpoint exec (code : list insn) (locals stack : list value) (h : gmap nat Obj)
  : gmap nat Obj * outcome :=
  match code with
  | [] => (h, Stuck)
  | i :: code' =>
      match i with
      | Aload n =>
          match locals !! n with
          | Some (VRef a) => exec code' locals (VRef a :: stack) h
          | Some VNull => exec code' locals (VNull :: stack) h
          | _ => (h, Stuck)
          end
      | Iload n =>
          match locals !! n with
          | Some (VInt z) => exec code' locals (VInt z :: stack) h
          | _ => (h, Stuck)
          end
      | Bipush b => exec code' locals (VInt b :: stack) h
      | Imul =>
          match stack with
          | VInt y :: VInt x :: st => exec code' locals (VInt (wrap32 (x * y)) :: st) h
          | _ => (h, Stuck)
          end
      | Getfield _ f =>
          match stack with
          | VRef a :: st =>
              match h !! a with
              | Some o =>
                  match o_fields o !! f with
                  | Some v => exec code' locals (v :: st) h
                  | None => (h, Stuck)
                  end
              | None => (h, Stuck)
              end
          | VNull :: _ => (h, Thrown NullPointerException)
          | _ => (h, Stuck)
          end
      | Putfield _ f =>
          match stack with
          | v :: VRef a :: st =>
              match h !! a with
              | Some o =>
                  exec code' locals st
                    (<[a := {| o_class := o_class o;
                               o_fields := <[f := v]> (o_fields o) |}]> h)
              | None => (h, Stuck)
              end
          | _ :: VNull :: _ => (h, Thrown NullPointerException)
          | _ => (h, Stuck)
          end
      | Checkcast t =>
          match stack with
          | VNull :: _ => exec code' locals stack h
          | VRef a :: _ =>
              match h !! a with
              | Some o =>
                  if instanceOf (o_class o) t
                  then exec code' locals stack h
                  else (h, Thrown ClassCastException)
              | None => (h, Stuck)
              end
          | _ => (h, Stuck)
          end
      | Invokevirtual _ name desc =>
          match paramCount desc with
          | None => (h, Stuck)
          | Some n =>
              match drop n stack with
              | recv :: st =>
                  match call h recv name desc (rev (take n stack)) with
                  | (h', Normal (Some v)) => exec code' locals (v :: st) h'
                  | (h', Normal None) => exec code' locals st h'
                  | (h', out) => (h', out)
                  end
              | [] => (h, Stuck)
              end
          end
      | Ireturn =>
          match stack with
          | VInt z :: _ => (h, Normal (Some (VInt z)))
          | _ => (h, Stuck)
          end
      | Areturn =>
          match stack with
          | VRef a :: _ => (h, Normal (Some (VRef a)))
          | VNull :: _ => (h, Normal (Some VNull))
          | _ => (h, Stuck)
          end
      | Return => (h, Normal None)
      end
  end.

End Exec.

(** Invoking [name:desc] on [recv]: select the method by the class of
    the receiver and run its code in a frame whose locals are the
    receiver and the arguments.  [fuel] bounds the depth of calls. *)
Fixpoint invoke (fuel : nat) (h : gmap nat Obj) (recv : value) (name desc : string)
    (args : list value) : gmap nat Obj * outcome :=
  match fuel with
  | 0 => (h, OutOfFuel)
  | S f =>
      match recv with
      | VNull => (h, Thrown NullPointerException)
      | VInt _ => (h, Stuck)
      | VRef a =>
          match h !! a with
          | None => (h, Stuck)
          | Some o =>
              match selectMethod (size ct) (o_class o) name desc with
              | None => (h, Thrown NoSuchMethodError)
              | Some m => exec (invoke f) (m_code m) (recv :: args) [] h
              end
          end
      end
  end.

End Machine.

End Jvm.

Import Jvm.

(** ** The example of the design note: classes [B] and [C], traits [A], [D] *)

Module Example.

Definition A_name : string := "io/treeverse/utils/A".
Definition B_name : string := "io/treeverse/utils/B".
Definition C_name : string := "io/treeverse/utils/C".
Definition D_name : string := "io/treeverse/utils/D".

Definition trait_A : Class := {| getName := "io.treeverse.utils.A" |}.
Definition trait_D : Class := {| getName := "io.treeverse.utils.D" |}.

Definition ACC_PUBLIC : Z := 1.

Definition method (name desc : string) (code : list insn) : MethodNode :=
  {| m_access := ACC_PUBLIC; m_name := name; m_desc := desc;
     m_signature := None; m_exceptions := None; m_code := code |}.

Definition class (name : string) (interfaces : list string) (ms : list MethodNode)
  : ClassNode :=
  {| c_version := 52; c_access := 33; c_name := name; c_signature := None;
     c_superName := Some "java/lang/Object"; c_interfaces := interfaces;
     c_methods := ms |}.

(** [class B { def a(n: Int) = n*n }] *)
Definition B_a : MethodNode := method "a" "(I)I" [Iload 1; Iload 1; Imul; Ireturn].
Definition class_B : ClassNode := class B_name [] [B_a].

(** The original [C.x], as listed: [public int x(io.treeverse.utils.B)]. *)
Definition C_x : MethodNode :=
  method "x" "(Lio/treeverse/utils/B;)I"
    [Aload 1; Bipush 11; Invokevirtual B_name "a" "(I)I"; Ireturn].
Definition class_C : ClassNode := class C_name [] [C_x].

(** [class C(n: Int) { def x(b: B) = b.a(n) }], the Scala original,
    which reads the constructor parameter from its field. *)
Definition C_x_field : MethodNode :=
  method "x" "(Lio/treeverse/utils/B;)I"
    [Aload 1; Aload 0; Getfield C_name "n"; Invokevirtual B_name "a" "(I)I"; Ireturn].

(** The overload that downcasts and forwards, as listed for
    [public int x(io.treeverse.utils.A)], with the names left open. *)
Definition synthesizedOverload (owner name desc castTo : string) : list insn :=
  [Aload 0; Aload 1; Checkcast castTo; Invokevirtual owner name desc; Ireturn].

Definition C_x_A : MethodNode :=
  method "x" "(Lio/treeverse/utils/A;)I"
    (synthesizedOverload C_name "x" "(Lio/treeverse/utils/B;)I" B_name).

(** The edited [C]: both overloads, and [D] declared. *)
Definition edited_C : ClassNode := class C_name [D_name] [C_x_A; C_x].

Definition edited_C_field : ClassNode := class C_name [D_name] [C_x_A; C_x_field].

(** [B] as loaded: declared to implement [A]. *)
Definition loaded_B : ClassNode := class B_name [A_name] [B_a].

(** Another implementation of [A], unrelated to [B]. *)
Definition E_name : string := "client/E".
Definition class_E : ClassNode :=
  class E_name [A_name] [method "a" "(I)I" [Iload 1; Ireturn]].


(** Methods that return an unmapped and a mapped class:
    [def label: String = this.label] and [def self: B = this.b]. *)
Definition H_name : string := "io/treeverse/utils/H".
Definition H_label : MethodNode :=
  method "label" "()Ljava/lang/String;" [Aload 0; Getfield H_name "label"; Areturn].
Definition H_self : MethodNode :=
  method "self" "()Lio/treeverse/utils/B;" [Aload 0; Getfield H_name "b"; Areturn].
Definition class_H : ClassNode := class H_name [] [H_label; H_self].

Definition classes : gmap string ClassNode :=
  <[B_name := loaded_B]> (<[C_name := edited_C]> (<[E_name := class_E]> ∅)).

Definition classes_field : gmap string ClassNode :=
  <[C_name := edited_C_field]> classes.

(** A heap with [new C(11)] at 0, [new B] at 1 and [new E] at 2. *)
Definition heap0 : gmap nat Obj :=
  <[0 := {| o_class := C_name; o_fields := {["n" := VInt 11]} |}]>
    (<[1 := {| o_class := B_name; o_fields := ∅ |}]>
       (<[2 := {| o_class := E_name; o_fields := ∅ |}]> ∅)).

(** The heap with [new C(n)] at 0 and [new B] at 1. *)
Definition heapWith (n : Z) : gmap nat Obj :=
  <[0 := {| o_class := C_name; o_fields := {["n" := VInt n]} |}]>
    (<[1 := {| o_class := B_name; o_fields := ∅ |}]> ∅).



(** An entry point with a mapped parameter that calls another one of its
    class: [class K { def keep(b: B): B = b; def x(b: B): B = keep(b) }]. *)
Definition K_name : string := "io/treeverse/utils/K".
Definition K_keep : MethodNode :=
  method "keep" "(Lio/treeverse/utils/B;)Lio/treeverse/utils/B;" [Aload 1; Areturn].
Definition K_x : MethodNode :=
  method "x" "(Lio/treeverse/utils/B;)Lio/treeverse/utils/B;"
    [Aload 0; Aload 1;
     Invokevirtual K_name "keep" "(Lio/treeverse/utils/B;)Lio/treeverse/utils/B;";
     Areturn].
Definition class_K : ClassNode := class K_name [] [K_keep; K_x].

(** The Scala original of [C], as compiled. *)
Definition class_C_field : ClassNode := class C_name [] [C_x_field].

(** The classes as compiled, before any visitor. *)
Definition original : gmap string ClassNode :=
  <[B_name := class_B]>
    (<[C_name := class_C]> (<[K_name := class_K]> (<[E_name := class_E]> ∅))).

(** What a collecting [cv] holds after [AsInterface] visited a class. *)
Definition visited (iface : Class) (c : ClassNode) : result ClassNode :=
  out ← AsInterface.accept iface c; Ok out.2.

(** The classes after the visitor: [B] visited with the interface [iB],
    the class [c] holding the entry point [x] with [iC], beside the
    client's own implementer [E], which no visitor sees. *)
Definition visitedClasses (iB iC : Class) (c : ClassNode) : result (gmap string ClassNode) :=
  b ← visited iB class_B;
  c' ← visited iC c;
  Ok (<[B_name := b]> (<[c_name c := c']> (<[E_name := class_E]> ∅))).

(** A heap with [new K] at 0 and [new B] at 1. *)
Definition heapK : gmap nat Obj :=
  <[0 := {| o_class := K_name; o_fields := ∅ |}]>
    (<[1 := {| o_class := B_name; o_fields := ∅ |}]> ∅).

(** A module source holding [B] and [C], and the registry of the
    note: [B] is mapped to [A], [C] to [D]. *)
Definition source : gmap string ClassNode :=
  <["io.treeverse.utils.B" := class_B]> (<["io.treeverse.utils.C" := class_C]> ∅).
Definition registry : gmap string Class :=
  <["io.treeverse.utils.B" := trait_A]> (<["io.treeverse.utils.C" := trait_D]> ∅).

End Example.

(** ** The isolated loading context *)

Module Loader.

Inductive LoadError := NotFound | RewriteFailed.

(** Modelled from the spec: the handle of a defined unit is missing from
    the sources; it is the name under which the unit was defined together
    with the unit as defined. *)
Record TypeHandle := { th_name : string; th_unit : ClassNode }.

(** What a context has done for a name: read its bytes, rewritten them,
    defined the result. *)
Inductive LoadEvent :=
| Read (name : string)
| Rewrote (name : string)
| Defined (name : string).

#[global] Instance LoadEvent_eq_dec : EqDecision LoadEvent.
Proof. solve_decision. Defined.

Definition occurrences (e : LoadEvent) (l : list LoadEvent) : nat :=
  count_occ LoadEvent_eq_dec l e.

(** Modelled from the spec: the loading context is missing from the
    sources.  It holds the read-only module source and interface
    registry it was created with, the cache of defined units, the names
    whose rewriting failed (a failed name stays failed and is not tried
    again), and, for stating how often work is done, a journal of its
    actions. *)
Record Context := {
  moduleSource : gmap string ClassNode;
  interfaceRegistry : gmap string Class;
  cache : gmap string TypeHandle;
  failed : gset string;
  journal : list LoadEvent
}.

Definition create (source : gmap string ClassNode) (registry : gmap string Class)
  : Context :=
  {| moduleSource := source; interfaceRegistry := registry;
     cache := ∅; failed := ∅; journal := [] |}.

(** Modelled from the spec: [rewrite(unit, registry)], the glue that is
    missing from the sources.  A unit whose name is in the registry goes
    through [AsInterface] with the interface mapped to it; any other unit
    is defined as read. *)
Definition rewrite (registry : gmap string Class) (name : string) (unit : ClassNode)
  : result ClassNode :=
  match registry !! name with
  | Some iface => out ← AsInterface.accept iface unit; Ok out.2
  | None => Ok unit
  end.

(** Modelled from the spec: [resolve(name)], missing from the sources.
    A cached name is answered from the cache and a name that failed in
    rewriting fails again; otherwise the unit is read from the module
    source ([NotFound] when absent), rewritten ([RewriteFailed] when the
    rewriter throws), defined and cached.  A failure leaves the cache as
    it was. *)
Definition resolve (name : string) (ctx : Context) : (LoadError + TypeHandle) * Context :=
  match cache ctx !! name with
  | Some handle => (inr handle, ctx)
  | None =>
      if decide (name ∈ failed ctx) then (inl RewriteFailed, ctx)
      else
        match moduleSource ctx !! name with
        | None => (inl NotFound, ctx)
        | Some raw =>
            match rewrite (interfaceRegistry ctx) name raw with
            | Throw _ =>
                (inl RewriteFailed,
                 {| moduleSource := moduleSource ctx;
                    interfaceRegistry := interfaceRegistry ctx;
                    cache := cache ctx;
                    failed := {[name]} ∪ failed ctx;
                    journal := journal ctx ++ [Read name] |})
            | Ok unit =>
                let handle := {| th_name := name; th_unit := unit |} in
                (inr handle,
                 {| moduleSource := moduleSource ctx;
                    interfaceRegistry := interfaceRegistry ctx;
                    cache := <[name := handle]> (cache ctx);
                    failed := failed ctx;
                    journal := journal ctx ++ [Read name; Rewrote name; Defined name] |})
            end
        end
  end.

(** The context after a sequence of [resolve] calls. *)
Definition resolveAll (names : list string) (ctx : Context) : Context :=
  foldl (fun c name => (resolve name c).2) ctx names.

(** The handle that a name gets in a context over [source] and
    [registry], when its unit is there and can be rewritten. *)
Definition handleOf (source : gmap string ClassNode) (registry : gmap string Class)
    (name : string) : option TypeHandle :=
  match source !! name with
  | None => None
  | Some raw =>
      match rewrite registry name raw with
      | Ok unit => Some {| th_name := name; th_unit := unit |}
      | Throw _ => None
      end
  end.

(** What every context reached from [create source registry] satisfies:
    a cached name holds its handle and was read, rewritten and defined
    once; an uncached name was never rewritten or defined, and was read
    once if its rewriting failed and never otherwise; a failed name is in
    the module source and is not cached. *)
Record consistent (source : gmap string ClassNode) (registry : gmap string Class)
    (ctx : Context) : Prop := {
  cons_source : moduleSource ctx = source;
  cons_registry : interfaceRegistry ctx = registry;
  cons_cached : forall n hd, cache ctx !! n = Some hd ->
    handleOf source registry n = Some hd /\
    occurrences (Read n) (journal ctx) = 1 /\
    occurrences (Rewrote n) (journal ctx) = 1 /\
    occurrences (Defined n) (journal ctx) = 1;
  cons_uncached : forall n, cache ctx !! n = None ->
    occurrences (Rewrote n) (journal ctx) = 0 /\
    occurrences (Defined n) (journal ctx) = 0 /\
    occurrences (Read n) (journal ctx) = (if decide (n ∈ failed ctx) then 1 else 0);
  cons_failed : forall n, n ∈ failed ctx ->
    is_Some (source !! n) /\ cache ctx !! n = None
}.

End Loader.

(** ** A run of the loading context over the example *)

Module Scenario.

(** The context after resolving [C]. *)
Definition after_C : Loader.Context :=
  Loader.resolveAll ["io.treeverse.utils.C"]
    (Loader.create Example.source Example.registry).

(** The handle of [B]: the unit is [B] declared to implement [A]. *)
Definition handle_B : Loader.TypeHandle :=
  {| Loader.th_name := "io.treeverse.utils.B"; Loader.th_unit := Example.loaded_B |}.

(** The context after resolving [C] and then [B]. *)
Definition after_C_B : Loader.Context :=
  (Loader.resolve "io.treeverse.utils.B" after_C).2.

End Scenario.

(** ** The local block adapter: the pure parts of the multipart upload *)

Module Go.

(** What makes a Go function panic here. *)
Inductive panic := NilPointerDereference | SliceBoundsOutOfRange.

Inductive result (A : Type) :=
| Return (a : A)
| Panic (p : panic).
Arguments Return {A} a.
Arguments Panic {A} p.

(** A byte as a number and back. *)
Definition byteZ (c : ascii) : Z := Z.of_N (N_of_ascii c).
Definition Zbyte (z : Z) : ascii := ascii_of_N (Z.to_N (z mod 256)).

(** [[]byte(s)] and [string(b)]. *)
Definition bytes (s : string) : list ascii := list_ascii_of_string s.
Definition text (b : list ascii) : string := string_of_list_ascii b.

Definition len (s : string) : Z := Z.of_nat (String.length s).

(** [s[lo:hi]]: the bounds are checked at run time. *)
Definition slice (s : string) (lo hi : Z) : result string :=
  if (0 <=? lo)%Z && (lo <=? hi)%Z && (hi <=? len s)%Z
  then Return (String.substring (Z.to_nat lo) (Z.to_nat (hi - lo)) s)
  else Panic SliceBoundsOutOfRange.

(** [strings.HasPrefix] and [strings.HasSuffix]. *)
Definition HasPrefix (s prefix : string) : bool :=
  (len prefix <=? len s)%Z
  && String.eqb (String.substring 0 (String.length prefix) s) prefix.

Definition HasSuffix (s suffix : string) : bool :=
  (len suffix <=? len s)%Z
  && String.eqb
       (String.substring (String.length s - String.length suffix)
          (String.length suffix) s)
       suffix.

(** *** [encoding/hex] *)

Definition hextable : string := "0123456789abcdef".

Definition hexDigit (n : Z) : ascii :=
  default "0"%char (String.get (Z.to_nat n) hextable).

(** [hex.EncodeToString]: [hextable[v>>4]] and [hextable[v&0x0f]] per byte. *)
Fixpoint EncodeToString (src : list ascii) : string :=
  match src with
  | [] => ""
  | v :: rest =>
      String (hexDigit (Z.shiftr (byteZ v) 4))
        (String (hexDigit (Z.land (byteZ v) 15)) (EncodeToString rest))
  end.

Definition between (lo hi c : ascii) : bool :=
  (byteZ lo <=? byteZ c)%Z && (byteZ c <=? byteZ hi)%Z.

Definition fromHexChar (c : ascii) : option Z :=
  if between "0" "9" c then Some (byteZ c - byteZ "0")%Z
  else if between "a" "f" c then Some (byteZ c - byteZ "a" + 10)%Z
  else if between "A" "F" c then Some (byteZ c - byteZ "A" + 10)%Z
  else None.

Inductive hexError :=
| InvalidByteError (c : ascii)
| ErrLength.

(** [hex.Decode]: pairs of digits from the left; at the first character
    that is no digit, or at a single digit left over, it stops with an
    error and what was decoded so far. *)
Fixpoint Decode (src : list ascii) : list ascii * option hexError :=
  match src with
  | [] => ([], None)
  | [p] =>
      match fromHexChar p with
      | None => ([], Some (InvalidByteError p))
      | Some _ => ([], Some ErrLength)
      end
  | p :: q :: rest =>
      match fromHexChar p with
      | None => ([], Some (InvalidByteError p))
      | Some a =>
          match fromHexChar q with
          | None => ([], Some (InvalidByteError q))
          | Some b =>
              let '(dst, err) := Decode rest in
              (Zbyte (Z.lor (Z.shiftl a 4) b) :: dst, err)
          end
      end
  end.

Definition DecodeString (s : string) : list ascii * option hexError :=
  Decode (bytes s).

(** *** [crypto/md5]: the digest function of RFC 1321 *)

Definition add32 (a b : Z) : Z := ((a + b) mod 2 ^ 32)%Z.
Definition not32 (a : Z) : Z := (2 ^ 32 - 1 - a)%Z.
Definition rotl32 (x s : Z) : Z :=
  Z.lor (Z.shiftl x s mod 2 ^ 32) (Z.shiftr x (32 - s)).

Definition md5_K : list Z :=
  [3614090360; 3905402710; 606105819; 3250441966; 4118548399; 1200080426;
   2821735955; 4249261313; 1770035416; 2336552879; 4294925233; 2304563134;
   1804603682; 4254626195; 2792965006; 1236535329; 4129170786; 3225465664;
   643717713; 3921069994; 3593408605; 38016083; 3634488961; 3889429448;
   568446438; 3275163606; 4107603335; 1163531501; 2850285829; 4243563512;
   1735328473; 2368359562; 4294588738; 2272392833; 1839030562; 4259657740;
   2763975236; 1272893353; 4139469664; 3200236656; 681279174; 3936430074;
   3572445317; 76029189; 3654602809; 3873151461; 530742520; 3299628645;
   4096336452; 1126891415; 2878612391; 4237533241; 1700485571; 2399980690;
   4293915773; 2240044497; 1873313359; 4264355552; 2734768916; 1309151649;
   4149444226; 3174756917; 718787259; 3951481745]%Z.

Definition md5_S : list Z :=
  [7; 12; 17; 22; 7; 12; 17; 22; 7; 12; 17; 22; 7; 12; 17; 22;
   5; 9; 14; 20; 5; 9; 14; 20; 5; 9; 14; 20; 5; 9; 14; 20;
   4; 11; 16; 23; 4; 11; 16; 23; 4; 11; 16; 23; 4; 11; 16; 23;
   6; 10; 15; 21; 6; 10; 15; 21; 6; 10; 15; 21; 6; 10; 15; 21]%Z.

(** One of the 64 steps on the state [(a, b, c, d)] with the block [M]
    of sixteen words. *)
Definition md5_step (M : list Z) (st : Z * Z * Z * Z) (i : nat) : Z * Z * Z * Z :=
  let '(a, b, c, d) := st in
  let '(f, g) :=
    if (i <? 16)%nat then (Z.lor (Z.land b c) (Z.land (not32 b) d), i)
    else if (i <? 32)%nat then
      (Z.lor (Z.land d b) (Z.land (not32 d) c), ((5 * i + 1) mod 16)%nat)
    else if (i <? 48)%nat then (Z.lxor (Z.lxor b c) d, ((3 * i + 5) mod 16)%nat)
    else (Z.lxor c (Z.lor b (not32 d)), ((7 * i) mod 16)%nat) in
  let F := add32 (add32 (add32 f a) (nth i md5_K 0%Z)) (nth g M 0%Z) in
  (d, add32 b (rotl32 F (nth i md5_S 0%Z)), b, c).

Definition md5_block (st : Z * Z * Z * Z) (M : list Z) : Z * Z * Z * Z :=
  let '(a0, b0, c0, d0) := st in
  let '(a, b, c, d) := fold_left (md5_step M) (seq 0 64) st in
  (add32 a0 a, add32 b0 b, add32 c0 c, add32 d0 d).

(** Little-endian bytes of a number and back. *)
Fixpoint le_bytes (n : nat) (z : Z) : list ascii :=
  match n with
  | O => []
  | S n' => Zbyte z :: le_bytes n' (z / 256)
  end.

Fixpoint le_word (bs : list ascii) : Z :=
  match bs with
  | [] => 0
  | b :: rest => (byteZ b + 256 * le_word rest)%Z
  end.

(** The words of the message, four bytes each. *)
Fixpoint words (fuel : nat) (bs : list ascii) : list Z :=
  match fuel, bs with
  | S f, _ :: _ => le_word (take 4 bs) :: words f (drop 4 bs)
  | _, _ => []
  end.

Fixpoint blocks (fuel : nat) (ws : list Z) : list (list Z) :=
  match fuel, ws with
  | S f, _ :: _ => take 16 ws :: blocks f (drop 16 ws)
  | _, _ => []
  end.

(** The message, a one bit, zeros up to 56 modulo 64, and the length in
    bits as eight bytes. *)
Definition md5_pad (msg : list ascii) : list ascii :=
  let n := Z.of_nat (length msg) in
  msg ++ [Zbyte 128]
      ++ repeat (Zbyte 0) (Z.to_nat ((55 - n) mod 64))
      ++ le_bytes 8 ((8 * n) mod 2 ^ 64).

Definition md5_digest (msg : list ascii) : list ascii :=
  let padded := md5_pad msg in
  let ws := words (length padded) padded in
  let '(a, b, c, d) :=
    fold_left md5_block (blocks (length ws) ws)
      (1732584193, 4023233417, 2562383102, 271733878)%Z in
  le_bytes 4 a ++ le_bytes 4 b ++ le_bytes 4 c ++ le_bytes 4 d.

(** A [hash.Hash] from [md5.New()] is what was written to it so far;
    [Sum(b)] appends the digest of that to [b]. *)
Definition md5_New : list ascii := [].
Definition md5_Write (h p : list ascii) : list ascii := h ++ p.
Definition md5_Sum (h b : list ascii) : list ascii := b ++ md5_digest h.

(** *** [fmt.Sprintf] with the verb [%05d] *)

Definition digitChar (d : Z) : ascii := Zbyte (48 + d).

(** The [w] lowest decimal digits of [n], highest first. *)
Fixpoint fixedDigits (w : nat) (n : Z) : string :=
  match w with
  | O => ""
  | S w' => String (digitChar ((n / 10 ^ Z.of_nat w') mod 10)) (fixedDigits w' n)
  end.

(** How many decimal digits [n] has; an [int64] has at most 19. *)
Fixpoint numDigits (fuel : nat) (n : Z) : nat :=
  match fuel with
  | O => 1
  | S f => if (n <? 10)%Z then 1 else S (numDigits f (n / 10))
  end.

(** [fmt.Sprintf("%05d", n)] for an [int64]: zeros fill up to width 5,
    the sign counted in; more digits are written in full. *)
Definition Sprintf_05d (n : Z) : string :=
  if (n <? 0)%Z
  then String "-" (fixedDigits (Nat.max 4 (numDigits 19 (- n))) (- n))
  else fixedDigits (Nat.max 5 (numDigits 19 n)) n.

(** *** [package local] *)

(** [s3.CompletedPart]: both fields are pointers. *)
Record CompletedPart := { ETag : option string; PartNumber : option Z }.

Definition quote : string := String "034" "".

(** The body of the [if] in the loop of [computeETag]: an ETag between
    double quotes loses them. *)
Definition stripQuotes (e : string) : result string :=
  if HasPrefix e quote && HasSuffix e quote
  then slice e 1 (len e - 1)
  else Return e.

(** The loop of [computeETag]: [Parts] holds pointers, [ETagHex] is the
    slice built so far. *)
Fixpoint collectETags (Parts : list (option CompletedPart)) (ETagHex : list string)
  : result (list string) :=
  match Parts with
  | [] => Return ETagHex
  | p :: rest =>
      match p with
      | None => Panic NilPointerDereference
      | Some part =>
          match ETag part with
          | None => Panic NilPointerDereference
          | Some e =>
              match stripQuotes e with
              | Panic x => Panic x
              | Return e' => collectETags rest (ETagHex ++ [e'])
              end
          end
      end
  end.

(** [strings.Join(a, "")] *)
Definition Join_empty (a : list string) : string :=
  fold_right String.append "" a.

Definition computeETag (Parts : list (option CompletedPart)) : result string :=
  match collectETags Parts [] with
  | Panic x => Panic x
  | Return ETagHex =>
      let s := Join_empty ETagHex in
      let '(b, _) := DecodeString s in
      let md := md5_New in
      let csm := EncodeToString (md5_Sum md b) in
      Return csm
  end.

(** The name of a part file in [UploadPart]:
    [uploadId + fmt.Sprintf("-%05d", partNumber)]. *)
Definition fName (uploadId : string) (partNumber : Z) : string :=
  uploadId +:+ String "-" (Sprintf_05d partNumber).

(** The ETag that [UploadPart] returns for a part with the given bytes:
    the digest in hex between double quotes. *)
Definition partETag (data : list ascii) : string :=
  quote +:+ EncodeToString (md5_Sum (md5_Write md5_New data) []) +:+ quote.


Definition isHexChar (c : ascii) : bool :=
  match fromHexChar c with
  | Some _ => true
  | None => false
  end.

End Go.

(** * Properties *)

(** ** Tactics for the result monad *)

Lemma bind_Ok_inv {A B} (r : result A) (k : A -> result B) (b : B) :
  r ≫= k = Ok b -> exists a, r = Ok a /\ k a = Ok b.
Proof.
  destruct r as [a|e]; [|discriminate]. intros H. exists a. now split.
Qed.

Ltac inv_bind H :=
  let a := fresh "a" in
  let Ha := fresh "Ha" in
  apply bind_Ok_inv in H; destruct H as (a & Ha & H).

(** ** The descriptor translation *)

Section TranslateDesc.

Variable replacer : Regex.Match -> string.
Hypothesis replacer_paren : forall m, exists t, replacer m = String ")" t.

Lemma descReturnType_head c t m :
  AsInterface.descReturnType (String c t) = Some m -> c = ")"%char.
Proof.
  destruct t as [|d t]; simpl; [discriminate|].
  destruct (Ascii.eqb c ")") eqn:E; simpl; [|discriminate].
  intros _. now apply Ascii.eqb_eq.
Qed.

Lemma appendReplacement_head m out :
  Regex.appendReplacement m (replacer m) = Ok out -> exists t, out = String ")" t.
Proof.
  destruct (replacer_paren m) as [t ->].
  unfold Regex.appendReplacement; simpl. intros H.
  inv_bind H. injection H as <-. eauto.
Qed.

Lemma replaceAllIn_from_cons c t :
  Regex.replaceAllIn_from AsInterface.descReturnType replacer 0 (String c t) =
  match AsInterface.descReturnType (String c t) with
  | Some m =>
      r ← Regex.appendReplacement m (replacer m);
      tl ← Regex.replaceAllIn_from AsInterface.descReturnType replacer
             (String.length (Regex.matched m) - 1) t;
      Ok (r +:+ tl)
  | None =>
      tl ← Regex.replaceAllIn_from AsInterface.descReturnType replacer 0 t;
      Ok (String c tl)
  end.
Proof. reflexivity. Qed.

(** Matches begin at a closing parenthesis, and so does what replaces
    them: the text before the first one is never touched. *)
Lemma replaceAllIn_parameterPart s out :
  Regex.replaceAllIn_from AsInterface.descReturnType replacer 0 s = Ok out ->
  parameterPart out = parameterPart s.
Proof.
  revert out. induction s as [|c t IH]; intros out.
  - simpl. now intros [= <-].
  - rewrite replaceAllIn_from_cons.
    destruct (AsInterface.descReturnType (String c t)) as [m|] eqn:E.
    + apply descReturnType_head in E as ->. intros H.
      inv_bind H. apply appendReplacement_head in Ha as [r ->].
      inv_bind H. injection H as <-. reflexivity.
    + intros H. inv_bind H. injection H as <-. simpl.
      destruct (Ascii.eqb c ")"); [reflexivity|]. f_equal. now apply IH.
Qed.

End TranslateDesc.


Lemma append_cons c s t : String c s +:+ t = String c (s +:+ t).
Proof. reflexivity. Qed.

Lemma append_empty_l t : "" +:+ t = t.
Proof. reflexivity. Qed.

Lemma append_empty_r s : s +:+ "" = s.
Proof.
  induction s as [|c s IH]; [reflexivity|]. now rewrite append_cons, IH.
Qed.

Lemma expand_literal m r : Regex.isLiteral r = true -> Regex.expand m None r = Ok r.
Proof.
  induction r as [|c t IH]; [reflexivity|]. cbn [Regex.isLiteral].
  intros H. apply andb_prop in H as [H Ht]. apply andb_prop in H as [Hb Hd].
  apply negb_true_iff in Hb, Hd. cbn [Regex.expand]. rewrite Hb, Hd, (IH Ht).
  reflexivity.
Qed.

Lemma isLiteral_app r1 r2 :
  Regex.isLiteral (r1 +:+ r2) = Regex.isLiteral r1 && Regex.isLiteral r2.
Proof.
  induction r1 as [|c t IH]; [reflexivity|]. rewrite append_cons. simpl. rewrite IH.
  now rewrite !andb_assoc.
Qed.

Lemma replaceAll_dot_slash_literal s :
  Regex.isLiteral s = true -> Regex.isLiteral (replaceAll_dot_slash s) = true.
Proof.
  induction s as [|c t IH]; [reflexivity|]. simpl.
  intros H. apply andb_prop in H as [H Ht]. rewrite (IH Ht), andb_true_r.
  destruct (Ascii.eqb c ".") eqn:E; [reflexivity|exact H].
Qed.

Lemma spanName_name nm c rest :
  Regex.isName nm = true -> Regex.isNameChar c = false ->
  Regex.spanName (nm +:+ String c rest) = (nm, String c rest).
Proof.
  intros Hnm Hc. induction nm as [|n nm IH].
  - rewrite append_empty_l. simpl. now rewrite Hc.
  - rewrite append_cons. simpl in *.
    apply andb_prop in Hnm as [Hn Hnm]. now rewrite Hn, (IH Hnm).
Qed.

Lemma replaceAllIn_from_skip replacer s :
  Regex.replaceAllIn_from AsInterface.descReturnType replacer (String.length s) s = Ok "".
Proof. induction s as [|c t IH]; [reflexivity|exact IH]. Qed.

Lemma replaceAllIn_from_prefix replacer pre rest :
  parameterPart pre = pre ->
  Regex.replaceAllIn_from AsInterface.descReturnType replacer 0 (pre +:+ rest) =
  tl ← Regex.replaceAllIn_from AsInterface.descReturnType replacer 0 rest;
  Ok (pre +:+ tl).
Proof.
  induction pre as [|c t IH]; intros Hpre.
  - rewrite append_empty_l.
    destruct (Regex.replaceAllIn_from AsInterface.descReturnType replacer 0 rest); reflexivity.
  - simpl in Hpre. destruct (Ascii.eqb c ")") eqn:E; [discriminate|].
    injection Hpre as Hpre. rewrite append_cons, replaceAllIn_from_cons.
    destruct (AsInterface.descReturnType (String c (t +:+ rest))) as [m|] eqn:El.
    + apply descReturnType_head in El. subst c. discriminate.
    + rewrite (IH Hpre).
      now destruct (Regex.replaceAllIn_from AsInterface.descReturnType replacer 0 rest).
Qed.

(** X1: an interface name without dollar sign and backslash is put in as
    it is: any descriptor that returns a class named by class characters
    comes out returning the interface, whatever its parameters. *)
Lemma translateDesc_object_return iface params n nm :
  parameterPart params = params ->
  Regex.isName (String n nm) = true ->
  Regex.isLiteral (getName iface) = true ->
  AsInterface.translateDesc iface (params +:+ ")L" +:+ String n nm +:+ ";")
  = Ok (params +:+ ")L" +:+ AsInterface.Type_getInternalName iface +:+ ";").
Proof.
  intros Hp Hn Hl. unfold AsInterface.translateDesc, Regex.replaceAllIn.
  rewrite replaceAllIn_from_prefix by assumption.
  change (")L" +:+ String n nm +:+ ";")
    with (String ")" (String "L" (String n nm +:+ ";"))).
  rewrite replaceAllIn_from_cons. unfold AsInterface.descReturnType.
  cbn [Ascii.eqb Bool.eqb andb].
  rewrite (spanName_name (String n nm) ";" "" Hn eq_refl).
  cbn [Ascii.eqb Bool.eqb andb Regex.matched].
  unfold Regex.appendReplacement. rewrite expand_literal.
  - change (String.length (")L" +:+ String n nm +:+ ";") - 1)
      with (String.length (String "L" (String n nm +:+ ";")) - 0).
    rewrite Nat.sub_0_r, replaceAllIn_from_skip.
    cbn [mbind result_bind bind]. rewrite append_empty_r. reflexivity.
  - change (")L" +:+ replaceAll_dot_slash (getName iface) +:+ ";")
      with (String ")" (String "L" (replaceAll_dot_slash (getName iface) +:+ ";"))).
    cbn [Regex.isLiteral Ascii.eqb Bool.eqb negb andb].
    rewrite isLiteral_app, replaceAll_dot_slash_literal by assumption. reflexivity.
Qed.

(** The interface of the note nested in an object: its binary name has a
    dollar sign, which the replacement text takes for a group reference. *)
Lemma translateDesc_nested_interface_throws :
  AsInterface.translateDesc {| getName := "shading.rocksdb$Options" |}
    "()Lorg/rocksdb/Options;" = Throw IllegalArgumentException.
Proof. reflexivity. Qed.

(** A descriptor that returns no class is handed on as it is. *)
Lemma translateDesc_int_return iface :
  AsInterface.translateDesc iface "(Lio/treeverse/utils/B;)I"
  = Ok "(Lio/treeverse/utils/B;)I".
Proof. reflexivity. Qed.

(** ** The class visitor *)

Lemma acceptMethod_inv iface m line m' :
  AsInterface.acceptMethod iface m = Ok (line, m') ->
  m_access m' = m_access m /\ m_name m' = m_name m /\
  AsInterface.translateDesc iface (m_desc m) = Ok (m_desc m') /\
  m_signature m' = m_signature m /\ m_exceptions m' = m_exceptions m /\
  m_code m' = m_code m.
Proof.
  unfold AsInterface.acceptMethod, AsInterface.visitMethod. intros H.
  inv_bind H. inv_bind Ha. injection Ha as <-. injection H as _ <-. simpl.
  repeat split; assumption.
Qed.


Lemma accept_inv iface c lines c' :
  AsInterface.accept iface c = Ok (lines, c') ->
  c_version c' = c_version c /\ c_access c' = c_access c /\ c_name c' = c_name c /\
  c_signature c' = c_signature c /\ c_superName c' = c_superName c /\
  c_interfaces c' = c_interfaces c ++ [AsInterface.Type_getInternalName iface] /\
  exists lines', AsInterface.acceptMethods iface (c_methods c) = Ok (lines', c_methods c').
Proof.
  unfold AsInterface.accept. intros H. inv_bind H.
  injection Ha as <-. inv_bind H. destruct a as [lines1 ms1].
  injection H as <- <-. simpl. repeat split; eauto.
Qed.

(** C1, at the class [C] of the design note, visited with any interface:
    the descriptor of [x] still names the concrete parameter type [B] and
    the code of [x] is the original code, with no cast in front of it. *)
Theorem accept_leaves_parameter_and_body (iface : Class) :
  AsInterface.accept iface Example.class_C =
  Ok (["[DEBUG] name x desc (Lio/treeverse/utils/B;)I signature null"],
      Example.class Example.C_name [AsInterface.Type_getInternalName iface]
        [Example.method "x" "(Lio/treeverse/utils/B;)I"
           [Aload 1; Bipush 11; Invokevirtual Example.B_name "a" "(I)I"; Ireturn]]).
Proof. reflexivity. Qed.

(** So the class [C] that the visitor hands on, put in the place of the
    edited [C], has no entry point [x] that takes the interface [A]. *)
Lemma visited_C_has_no_interface_overload (fuel : nat) :
  invoke (<[Example.C_name := Example.class Example.C_name [Example.D_name] [Example.C_x]]>
            Example.classes)
    (S fuel) Example.heap0 (VRef 0) "x" "(Lio/treeverse/utils/A;)I" [VRef 1]
  = (Example.heap0, Thrown NoSuchMethodError).
Proof. vm_compute. reflexivity. Qed.

(** C2, at two descriptors: the return type of [label], the unmapped class
    [String], and the return type of [self], the mapped class [B], both
    come out as the interface [A]. *)
Theorem translateDesc_rewrites_return_type :
  AsInterface.translateDesc Example.trait_A "()Ljava/lang/String;"
    = Ok "()Lio/treeverse/utils/A;"
  /\ AsInterface.translateDesc Example.trait_A "()Lio/treeverse/utils/B;"
    = Ok "()Lio/treeverse/utils/A;"
  /\ (out ← AsInterface.accept Example.trait_A Example.class_H;
      Ok (m_desc <$> c_methods out.2))
    = Ok ["()Lio/treeverse/utils/A;"; "()Lio/treeverse/utils/A;"].
Proof. repeat split; reflexivity. Qed.

(** C3: a unit visited with the interface its name is mapped to comes out
    declaring the original interfaces followed by that interface, and
    nothing else: the emitted list is the original list with the internal
    name of the interface appended at the end. *)
Theorem accept_appends_mapped_interface (iface : Class) (c c' : ClassNode)
    (lines : list string) :
  AsInterface.accept iface c = Ok (lines, c') ->
  c_interfaces c' = c_interfaces c ++ [AsInterface.Type_getInternalName iface]
  /\ length (c_interfaces c') = S (length (c_interfaces c))
  /\ (forall i, i ∈ c_interfaces c' <->
                i ∈ c_interfaces c \/ i = AsInterface.Type_getInternalName iface).
Proof.
  intros H. apply accept_inv in H as (_ & _ & _ & _ & _ & Hi & _).
  rewrite Hi. split; [reflexivity|]. split.
  - rewrite length_app. simpl. lia.
  - intros i. rewrite elem_of_app, list_elem_of_singleton. reflexivity.
Qed.

Lemma accept_appends_mapped_interface_witness :
  AsInterface.accept Example.trait_A Example.class_B
    = Ok (["[DEBUG] name a desc (I)I signature null"], Example.loaded_B)
  /\ c_interfaces Example.loaded_B
     = c_interfaces Example.class_B ++ [AsInterface.Type_getInternalName Example.trait_A].
Proof.
  split; [reflexivity|].
  apply (accept_appends_mapped_interface Example.trait_A Example.class_B Example.loaded_B
           ["[DEBUG] name a desc (I)I signature null"]).
  reflexivity.
Defined.

(** C10: whenever [visit] hands a class header on, the version, access
    flags, class name, generic signature and super-class name it hands on
    are the ones it was given, and the interface array it was given is, in
    order, a prefix of the one it hands on. *)
Theorem visit_preserves_header (iface : Class) (version access : Z) (name : string)
    (signature superName : option string) (interfaces : option (list string))
    (h : VisitCall) :
  AsInterface.visit iface version access name signature superName interfaces = Ok h ->
  v_version h = version /\ v_access h = access /\ v_name h = name /\
  v_signature h = signature /\ v_superName h = superName /\
  exists ifs ifs', interfaces = Some ifs /\ v_interfaces h = Some ifs' /\ ifs `prefix_of` ifs'.
Proof.
  unfold AsInterface.visit. destruct interfaces as [ifs|]; [|discriminate].
  intros [= <-]. simpl. repeat split.
  exists ifs, (ifs ++ [AsInterface.Type_getInternalName iface]).
  repeat split. now apply prefix_app_r.
Qed.

Lemma visit_preserves_header_witness :
  AsInterface.visit Example.trait_A 52 33 Example.B_name None (Some "java/lang/Object")
    (Some ["java/io/Serializable"])
  = Ok {| v_version := 52; v_access := 33; v_name := Example.B_name;
          v_signature := None; v_superName := Some "java/lang/Object";
          v_interfaces := Some ["java/io/Serializable"; Example.A_name] |}
  /\ exists ifs ifs', Some ["java/io/Serializable"] = Some ifs
       /\ Some ["java/io/Serializable"; Example.A_name] = Some ifs'
       /\ ifs `prefix_of` ifs'.
Proof.
  split; [reflexivity|].
  apply (visit_preserves_header Example.trait_A 52 33 Example.B_name None
           (Some "java/lang/Object") (Some ["java/io/Serializable"])
           {| v_version := 52; v_access := 33; v_name := Example.B_name;
              v_signature := None; v_superName := Some "java/lang/Object";
              v_interfaces := Some ["java/io/Serializable"; Example.A_name] |}).
  reflexivity.
Defined.

(** A null interface array makes [visit] throw instead. *)
Lemma visit_null_interfaces iface version access name signature superName :
  AsInterface.visit iface version access name signature superName None
  = Throw NullPointerException.
Proof. reflexivity. Qed.






(** ** The overload that downcasts and forwards *)

Section Overload.

Variable ct : gmap string ClassNode.
Variables owner name descC descI castTo : string.

(** The receiver [this] is an object whose class answers [name:descI]
    with the synthesized overload. *)
Variables (h : gmap nat Obj) (t : nat) (ot : Obj) (m : MethodNode).
Hypothesis this_object : h !! t = Some ot.
Hypothesis this_overload : selectMethod ct (size ct) (o_class ot) name descI = Some m.
Hypothesis overload_code : m_code m = Example.synthesizedOverload owner name descC castTo.

(** The argument is an object. *)
Variables (a : nat) (o : Obj).
Hypothesis arg_object : h !! a = Some o.

Lemma invoke_overload fuel :
  invoke ct (S fuel) h (VRef t) name descI [VRef a] =
  exec ct (invoke ct fuel) (Example.synthesizedOverload owner name descC castTo)
    [VRef t; VRef a] [] h.
Proof. simpl. now rewrite this_object, this_overload, overload_code. Qed.

Lemma overload_cast_fails fuel :
  instanceOf ct (o_class o) castTo = false ->
  invoke ct (S fuel) h (VRef t) name descI [VRef a] = (h, Thrown ClassCastException).
Proof.
  intros Hno. rewrite invoke_overload. simpl. now rewrite arg_object, Hno.
Qed.

Lemma overload_forwards fuel :
  instanceOf ct (o_class o) castTo = true ->
  paramCount descC = Some 1 ->
  invoke ct (S fuel) h (VRef t) name descI [VRef a] =
  match invoke ct fuel h (VRef t) name descC [VRef a] with
  | (h', Normal (Some (VInt z))) => (h', Normal (Some (VInt z)))
  | (h', Normal _) => (h', Stuck)
  | (h', out) => (h', out)
  end.
Proof.
  intros Hyes Hn. rewrite invoke_overload. simpl.
  rewrite arg_object, Hyes, Hn. simpl.
  destruct (invoke ct fuel h (VRef t) name descC [VRef a]) as [h' [[[z| |]|]| | |]];
    reflexivity.
Qed.

End Overload.

(** X16, on the overload of the listing: when the receiver answers
    [name:descI], a signature with one parameter, with the code that
    casts to [castTo] and forwards, and the argument is an object that is
    no instance of [castTo], the invocation ends, for any amount of fuel,
    by throwing [ClassCastException] with the heap as it was; a frame
    that makes the call ends the same way, handing the exception on to
    its own caller. *)
Theorem overload_rejects_other_implementer (ct : gmap string ClassNode)
    (owner name descC descI castTo : string) (h : gmap nat Obj)
    (t a : nat) (ot o : Obj) (m : MethodNode) :
  h !! t = Some ot ->
  selectMethod ct (size ct) (o_class ot) name descI = Some m ->
  m_code m = Example.synthesizedOverload owner name descC castTo ->
  h !! a = Some o ->
  instanceOf ct (o_class o) castTo = false ->
  paramCount descI = Some 1 ->
  (forall fuel,
      invoke ct (S fuel) h (VRef t) name descI [VRef a] = (h, Thrown ClassCastException))
  /\ (forall fuel caller rest locals st,
         exec ct (invoke ct (S fuel)) (Invokevirtual caller name descI :: rest)
           locals (VRef a :: VRef t :: st) h
         = (h, Thrown ClassCastException)).
Proof.
  intros Ht Hm Hc Ha Hno Hn.
  assert (Hinv : forall fuel,
             invoke ct (S fuel) h (VRef t) name descI [VRef a]
             = (h, Thrown ClassCastException))
    by (intros fuel; eapply overload_cast_fails; eassumption).
  split; [exact Hinv|].
  intros fuel caller rest locals st.
  cbn [exec]. rewrite Hn. cbn [drop take rev app]. now rewrite Hinv.
Qed.

Lemma overload_rejects_other_implementer_witness :
  instanceOf Example.classes Example.E_name Example.A_name = true
  /\ instanceOf Example.classes Example.E_name Example.B_name = false
  /\ invoke Example.classes 1 Example.heap0 (VRef 0) "x" "(Lio/treeverse/utils/A;)I" [VRef 2]
     = (Example.heap0, Thrown ClassCastException).
Proof.
  split; [vm_compute; reflexivity|]. split; [vm_compute; reflexivity|].
  apply (overload_rejects_other_implementer Example.classes
           Example.C_name "x" "(Lio/treeverse/utils/B;)I" "(Lio/treeverse/utils/A;)I"
           Example.B_name Example.heap0 0 2
           {| o_class := Example.C_name; o_fields := {["n" := VInt 11]} |}
           {| o_class := Example.E_name; o_fields := ∅ |}
           Example.C_x_A);
    vm_compute; reflexivity.
Defined.

(** The edited class [C] as the design note writes it out, with both
    overloads of [x], and [new C(11)] as receiver: calling [x] through the
    overload that takes the interface [A] returns 121 for an instance of
    [B] and throws [ClassCastException] for an instance of the unrelated
    implementer [E], whatever fuel is left beyond the three nested calls;
    the same holds when [C.x] reads [n] from its field as the Scala
    original does. *)
Lemma example_apply_through_interface (k : nat) :
  invoke Example.classes (3 + k) Example.heap0 (VRef 0) "x" "(Lio/treeverse/utils/A;)I"
    [VRef 1] = (Example.heap0, Normal (Some (VInt 121)))
  /\ invoke Example.classes (3 + k) Example.heap0 (VRef 0) "x" "(Lio/treeverse/utils/A;)I"
    [VRef 2] = (Example.heap0, Thrown ClassCastException)
  /\ invoke Example.classes_field (3 + k) Example.heap0 (VRef 0) "x"
    "(Lio/treeverse/utils/A;)I" [VRef 1] = (Example.heap0, Normal (Some (VInt 121)))
  /\ invoke Example.classes_field (3 + k) Example.heap0 (VRef 0) "x"
    "(Lio/treeverse/utils/A;)I" [VRef 2] = (Example.heap0, Thrown ClassCastException).
Proof. repeat split; vm_compute; reflexivity. Qed.

(** X17, on the overload of the listing, which ends in [ireturn]: when
    the receiver answers [name:descI] with the code that casts to
    [castTo] and forwards to [name:descC], a signature with one
    parameter, and the argument is an instance of [castTo], then, if
    invoking the original entry point [name:descC] on the same receiver,
    heap and argument gives an [int] or a throwable, invoking the
    overload gives the same [int] or throwable and leaves the same heap,
    with one more unit of fuel for the extra call. *)
Theorem overload_refines_original (ct : gmap string ClassNode)
    (owner name descC descI castTo : string) (h h' : gmap nat Obj)
    (t a : nat) (ot o : Obj) (m : MethodNode) (fuel : nat) (r : outcome) :
  h !! t = Some ot ->
  selectMethod ct (size ct) (o_class ot) name descI = Some m ->
  m_code m = Example.synthesizedOverload owner name descC castTo ->
  h !! a = Some o ->
  instanceOf ct (o_class o) castTo = true ->
  paramCount descC = Some 1 ->
  invoke ct fuel h (VRef t) name descC [VRef a] = (h', r) ->
  (exists z, r = Normal (Some (VInt z))) \/ (exists e, r = Thrown e) ->
  invoke ct (S fuel) h (VRef t) name descI [VRef a] = (h', r).
Proof.
  intros Ht Hm Hc Ha Hyes Hn Horig Hr.
  erewrite overload_forwards by eassumption.
  rewrite Horig. destruct Hr as [[z ->]|[e ->]]; reflexivity.
Qed.

Lemma overload_refines_original_witness :
  invoke Example.classes 2 Example.heap0 (VRef 0) "x" "(Lio/treeverse/utils/B;)I" [VRef 1]
    = (Example.heap0, Normal (Some (VInt 121)))
  /\ invoke Example.classes 3 Example.heap0 (VRef 0) "x" "(Lio/treeverse/utils/A;)I" [VRef 1]
    = (Example.heap0, Normal (Some (VInt 121))).
Proof.
  split; [vm_compute; reflexivity|].
  apply (overload_refines_original Example.classes
           Example.C_name "x" "(Lio/treeverse/utils/B;)I" "(Lio/treeverse/utils/A;)I"
           Example.B_name Example.heap0 Example.heap0 0 1
           {| o_class := Example.C_name; o_fields := {["n" := VInt 11]} |}
           {| o_class := Example.B_name; o_fields := ∅ |}
           Example.C_x_A 2 (Normal (Some (VInt 121))));
    try (vm_compute; reflexivity).
  left. exists 121%Z. reflexivity.
Defined.

(** ** The example after the visitor *)


(** C5, on what the visitor hands on for the example with the registry
    of the note ([B] visited with [A], [C] with [D]), [new C(11)] as
    receiver, for [C.x] as listed and as the Scala original: calling [x]
    through the signature that takes the interface [A] ends in
    [NoSuchMethodError], with an instance of [B] (where 121 is expected)
    as with an instance of [E] (where [ClassCastException] is expected);
    121 is what the signature that names [B] returns. *)
Theorem example_after_visitor_has_no_interface_entry_point (k : nat) :
  exists ct ctf,
    Example.visitedClasses Example.trait_A Example.trait_D Example.class_C = Ok ct
    /\ Example.visitedClasses Example.trait_A Example.trait_D Example.class_C_field = Ok ctf
    /\ invoke ct (1 + k) Example.heap0 (VRef 0) "x" "(Lio/treeverse/utils/A;)I" [VRef 1]
       = (Example.heap0, Thrown NoSuchMethodError)
    /\ invoke ct (1 + k) Example.heap0 (VRef 0) "x" "(Lio/treeverse/utils/A;)I" [VRef 2]
       = (Example.heap0, Thrown NoSuchMethodError)
    /\ invoke ctf (1 + k) Example.heap0 (VRef 0) "x" "(Lio/treeverse/utils/A;)I" [VRef 1]
       = (Example.heap0, Thrown NoSuchMethodError)
    /\ invoke ctf (1 + k) Example.heap0 (VRef 0) "x" "(Lio/treeverse/utils/A;)I" [VRef 2]
       = (Example.heap0, Thrown NoSuchMethodError)
    /\ invoke ct (2 + k) Example.heap0 (VRef 0) "x" "(Lio/treeverse/utils/B;)I" [VRef 1]
       = (Example.heap0, Normal (Some (VInt 121)))
    /\ invoke ctf (2 + k) Example.heap0 (VRef 0) "x" "(Lio/treeverse/utils/B;)I" [VRef 1]
       = (Example.heap0, Normal (Some (VInt 121))).
Proof.
  eexists _, _. split; [reflexivity|]. split; [reflexivity|].
  repeat split; vm_compute; reflexivity.
Qed.

(** C6, at two entry points with a direct parameter of the mapped class
    [B], called with an instance of [B].  The original [C.x] returns 121;
    after the visitor the signature that takes the interface does not
    exist and the call ends in [NoSuchMethodError].  The original [K.x]
    returns its argument; after the visitor [K.x] and the [K.keep] it
    calls both return the interface [D] by their descriptors, the body of
    [x] still calls [keep] by the descriptor it had, and the call ends in
    [NoSuchMethodError] under the descriptor that [x] has now, under the
    one it had and under the one with the interface as parameter. *)
Theorem visited_entry_point_is_no_round_trip (k : nat) :
  invoke Example.original (2 + k) Example.heap0 (VRef 0) "x" "(Lio/treeverse/utils/B;)I"
    [VRef 1] = (Example.heap0, Normal (Some (VInt 121)))
  /\ (exists ct,
        Example.visitedClasses Example.trait_A Example.trait_D Example.class_C = Ok ct
        /\ invoke ct (1 + k) Example.heap0 (VRef 0) "x" "(Lio/treeverse/utils/A;)I" [VRef 1]
           = (Example.heap0, Thrown NoSuchMethodError))
  /\ invoke Example.original (2 + k) Example.heapK (VRef 0) "x"
       "(Lio/treeverse/utils/B;)Lio/treeverse/utils/B;" [VRef 1]
     = (Example.heapK, Normal (Some (VRef 1)))
  /\ (exists ct c',
        Example.visitedClasses Example.trait_A Example.trait_D Example.class_K = Ok ct
        /\ ct !! Example.K_name = Some c'
        /\ m_desc <$> c_methods c'
           = ["(Lio/treeverse/utils/B;)Lio/treeverse/utils/D;";
              "(Lio/treeverse/utils/B;)Lio/treeverse/utils/D;"]
        /\ m_code <$> c_methods c' = m_code <$> c_methods Example.class_K
        /\ invoke ct (2 + k) Example.heapK (VRef 0) "x"
             "(Lio/treeverse/utils/B;)Lio/treeverse/utils/D;" [VRef 1]
           = (Example.heapK, Thrown NoSuchMethodError)
        /\ invoke ct (1 + k) Example.heapK (VRef 0) "x"
             "(Lio/treeverse/utils/B;)Lio/treeverse/utils/B;" [VRef 1]
           = (Example.heapK, Thrown NoSuchMethodError)
        /\ invoke ct (1 + k) Example.heapK (VRef 0) "x"
             "(Lio/treeverse/utils/A;)Lio/treeverse/utils/B;" [VRef 1]
           = (Example.heapK, Thrown NoSuchMethodError)).
Proof.
  split; [vm_compute; reflexivity|]. split.
  { eexists. split; [reflexivity|]. vm_compute; reflexivity. }
  split; [vm_compute; reflexivity|].
  eexists _, _. split; [reflexivity|]. split; [reflexivity|].
  repeat split; vm_compute; reflexivity.
Qed.

(** ** The loading context *)

Section LoaderFacts.

Import Loader.

Variable source : gmap string ClassNode.
Variable registry : gmap string Class.

Lemma occurrences_app e l1 l2 :
  occurrences e (l1 ++ l2) = occurrences e l1 + occurrences e l2.
Proof. apply count_occ_app. Qed.

Lemma occurrences_cons e x l :
  occurrences e (x :: l) = (if decide (x = e) then 1 else 0) + occurrences e l.
Proof.
  unfold occurrences. cbn [count_occ].
  destruct (LoadEvent_eq_dec x e); case_decide; (reflexivity || contradiction).
Qed.

Lemma occurrences_nil e : occurrences e [] = 0.
Proof. reflexivity. Qed.

Ltac count_events :=
  rewrite ?occurrences_app, ?occurrences_cons, ?occurrences_nil;
  repeat case_decide; try congruence.

Lemma create_consistent : consistent source registry (create source registry).
Proof.
  split; simpl; try reflexivity.
  - intros n hd H. now rewrite lookup_empty in H.
  - intros n _. rewrite decide_False by apply not_elem_of_empty. auto.
  - intros n H. now apply not_elem_of_empty in H.
Qed.

Lemma resolve_cached name ctx hd :
  cache ctx !! name = Some hd -> resolve name ctx = (inr hd, ctx).
Proof. unfold resolve. now intros ->. Qed.

Lemma resolve_success_cached name ctx hd ctx' :
  resolve name ctx = (inr hd, ctx') -> cache ctx' !! name = Some hd.
Proof.
  unfold resolve. destruct (cache ctx !! name) as [hd0|] eqn:Hc.
  - now intros [= <- <-].
  - case_decide; [discriminate|].
    destruct (moduleSource ctx !! name) as [raw|]; [|discriminate].
    destruct (rewrite (interfaceRegistry ctx) name raw); [|discriminate].
    intros [= <- <-]. simpl. apply lookup_insert_eq.
Qed.

Lemma resolve_keeps_cached name n ctx hd :
  cache ctx !! n = Some hd -> cache (resolve name ctx).2 !! n = Some hd.
Proof.
  intros Hn. unfold resolve. destruct (cache ctx !! name) as [hd0|] eqn:Hc; [exact Hn|].
  case_decide; [exact Hn|].
  destruct (moduleSource ctx !! name) as [raw|]; [|exact Hn].
  destruct (rewrite (interfaceRegistry ctx) name raw); simpl; [|exact Hn].
  rewrite lookup_insert_ne; [exact Hn|]. intros ->. congruence.
Qed.

Lemma resolveAll_keeps_cached names n ctx hd :
  cache ctx !! n = Some hd -> cache (resolveAll names ctx) !! n = Some hd.
Proof.
  revert ctx. induction names as [|name names IH]; intros ctx Hn; [exact Hn|].
  simpl. apply IH. now apply resolve_keeps_cached.
Qed.

Lemma resolve_consistent name ctx :
  consistent source registry ctx -> consistent source registry (resolve name ctx).2.
Proof.
  intros [Hs Hr Hin Hout Hfail]. unfold resolve.
  destruct (cache ctx !! name) as [hd0|] eqn:Hc; [now split|].
  destruct (decide (name ∈ failed ctx)) as [Hf|Hf]; [now split|].
  destruct (moduleSource ctx !! name) as [raw|] eqn:Hraw; [|now split].
  assert (Hfresh : forall n hd, cache ctx !! n = Some hd -> n <> name)
    by (intros n hd Hn ->; congruence).
  destruct (Hout name Hc) as (Hw0 & Hd0 & Hr0).
  rewrite decide_False in Hr0 by assumption.
  destruct (rewrite (interfaceRegistry ctx) name raw) as [unit|e] eqn:Hrw;
    split; simpl; try assumption.
  - (* defined: cached names *)
    intros n hd. destruct (decide (n = name)) as [->|Hne].
    + rewrite lookup_insert_eq. intros [= <-]. split.
      * unfold handleOf. now rewrite <- Hs, Hraw, <- Hr, Hrw.
      * count_events. lia.
    + rewrite lookup_insert_ne by congruence. intros Hn.
      destruct (Hin n hd Hn) as (Hh & H1 & H2 & H3).
      split; [exact Hh|]. count_events. lia.
  - (* defined: uncached names *)
    intros n. destruct (decide (n = name)) as [->|Hne].
    + now rewrite lookup_insert_eq.
    + rewrite lookup_insert_ne by congruence. intros Hn.
      destruct (Hout n Hn) as (H1 & H2 & H3).
      rewrite <- H3. count_events; repeat split; lia.
  - (* defined: failed names *)
    intros n Hn. destruct (Hfail n Hn) as [Hsrc Hcache]. split; [exact Hsrc|].
    rewrite lookup_insert_ne; [exact Hcache|]. intros <-. contradiction.
  - (* rewriting failed: cached names *)
    intros n hd Hn. destruct (Hin n hd Hn) as (Hh & H1 & H2 & H3).
    specialize (Hfresh n hd Hn).
    split; [exact Hh|]. count_events. lia.
  - (* rewriting failed: uncached names *)
    intros n Hn. destruct (Hout n Hn) as (H1 & H2 & H3).
    destruct (decide (n = name)) as [->|Hne].
    + rewrite decide_True by (apply elem_of_union_l, elem_of_singleton; reflexivity).
      count_events. repeat split; lia.
    + assert (Hiff : n ∈ {[name]} ∪ failed ctx <-> n ∈ failed ctx)
        by (rewrite elem_of_union, elem_of_singleton; tauto).
      rewrite (decide_ext _ _ _ _ Hiff), <- H3. count_events; repeat split; lia.
  - (* rewriting failed: failed names *)
    intros n Hn. apply elem_of_union in Hn as [Hn|Hn].
    + apply elem_of_singleton in Hn as ->. split; [|exact Hc].
      rewrite <- Hs, Hraw. eauto.
    + now apply Hfail.
Qed.

Lemma resolveAll_consistent names ctx :
  consistent source registry ctx -> consistent source registry (resolveAll names ctx).
Proof.
  revert ctx. induction names as [|name names IH]; intros ctx Hc; [exact Hc|].
  simpl. apply IH. now apply resolve_consistent.
Qed.

Lemma consistent_absent name ctx :
  consistent source registry ctx -> source !! name = None ->
  cache ctx !! name = None /\ name ∉ failed ctx.
Proof.
  intros Hc Habs. split.
  - destruct (cache ctx !! name) as [hd|] eqn:E; [|reflexivity].
    apply (cons_cached _ _ _ Hc) in E as (Hh & _). unfold handleOf in Hh.
    now rewrite Habs in Hh.
  - intros Hf. apply (cons_failed _ _ _ Hc) in Hf as [[raw Hraw] _]. congruence.
Qed.

Lemma resolve_absent name ctx :
  consistent source registry ctx -> source !! name = None ->
  resolve name ctx = (inl NotFound, ctx).
Proof.
  intros Hc Habs. unfold resolve.
  destruct (consistent_absent name ctx Hc Habs) as [Hcache Hf].
  rewrite Hcache, decide_False, (cons_source _ _ _ Hc), Habs by assumption.
  reflexivity.
Qed.

(** No unit is read twice, whether its name resolves or fails. *)
Lemma read_at_most_once n ctx :
  consistent source registry ctx -> occurrences (Read n) (journal ctx) <= 1.
Proof.
  intros Hc. destruct (cache ctx !! n) as [hd|] eqn:E.
  - apply (cons_cached _ _ _ Hc) in E as (_ & -> & _). lia.
  - apply (cons_uncached _ _ _ Hc) in E as (_ & _ & ->). case_decide; lia.
Qed.

(** A name whose rewriting failed stays failed. *)
Lemma resolve_failed_again name ctx ctx' :
  resolve name ctx = (inl RewriteFailed, ctx') ->
  resolve name ctx' = (inl RewriteFailed, ctx').
Proof.
  intros H.
  assert (Hf : name ∈ failed ctx' /\ cache ctx' !! name = None).
  { revert H. unfold resolve.
    destruct (cache ctx !! name) as [hd|] eqn:E; [discriminate|].
    case_decide as Hin; [now intros [= <-]|].
    destruct (moduleSource ctx !! name) as [raw|]; [|discriminate].
    destruct (rewrite (interfaceRegistry ctx) name raw); [discriminate|].
    intros [= <-]. simpl. split; [|exact E].
    apply elem_of_union_l, elem_of_singleton. reflexivity. }
  destruct Hf as [Hf Hcache]. unfold resolve.
  now rewrite Hcache, decide_True.
Qed.

(** The rewriter of the context on mapped and on unmapped names. *)
Lemma rewrite_mapped name iface unit unit' :
  registry !! name = Some iface ->
  rewrite registry name unit = Ok unit' ->
  c_interfaces unit' = c_interfaces unit ++ [AsInterface.Type_getInternalName iface].
Proof.
  unfold rewrite. intros -> H. inv_bind H. injection H as <-.
  destruct a as [lines c']. now apply accept_inv in Ha as (_ & _ & _ & _ & _ & Hi & _).
Qed.

Lemma rewrite_unmapped name unit :
  registry !! name = None -> rewrite registry name unit = Ok unit.
Proof. unfold rewrite. now intros ->. Qed.

End LoaderFacts.

(** C8: in a context reached from a fresh one by any calls of [resolve],
    when [resolve name] returns a handle, then after any further calls of
    [resolve] (of this or of other names) [resolve name] returns that same
    handle and leaves the context as it is, and the journal shows the unit
    of [name] read once, rewritten once and defined once. *)
Theorem resolve_idempotent (source : gmap string ClassNode) (registry : gmap string Class)
    (before after : list string) (name : string)
    (handle : Loader.TypeHandle) (ctx' : Loader.Context) :
  Loader.resolve name (Loader.resolveAll before (Loader.create source registry))
    = (inr handle, ctx') ->
  Loader.resolve name (Loader.resolveAll after ctx')
    = (inr handle, Loader.resolveAll after ctx')
  /\ Loader.occurrences (Loader.Read name)
       (Loader.journal (Loader.resolveAll after ctx')) = 1
  /\ Loader.occurrences (Loader.Rewrote name)
       (Loader.journal (Loader.resolveAll after ctx')) = 1
  /\ Loader.occurrences (Loader.Defined name)
       (Loader.journal (Loader.resolveAll after ctx')) = 1.
Proof.
  intros H.
  pose proof (resolveAll_consistent source registry before _
                (create_consistent source registry)) as Hc0.
  pose proof (resolve_consistent source registry name _ Hc0) as Hc1.
  rewrite H in Hc1. simpl in Hc1.
  pose proof (resolveAll_consistent source registry after _ Hc1) as Hc2.
  apply resolve_success_cached in H.
  apply (resolveAll_keeps_cached after) in H.
  split; [now apply resolve_cached|].
  now destruct (Loader.cons_cached _ _ _ Hc2 name handle H) as (_ & ? & ? & ?).
Qed.

Lemma resolve_idempotent_witness :
  Loader.resolve "io.treeverse.utils.B" Scenario.after_C
    = (inr Scenario.handle_B, Scenario.after_C_B)
  /\ Loader.resolve "io.treeverse.utils.B"
       (Loader.resolveAll ["missing.Name"; "io.treeverse.utils.B"] Scenario.after_C_B)
     = (inr Scenario.handle_B,
        Loader.resolveAll ["missing.Name"; "io.treeverse.utils.B"] Scenario.after_C_B).
Proof.
  split; [vm_compute; reflexivity|].
  apply (resolve_idempotent Example.source Example.registry
           ["io.treeverse.utils.C"] ["missing.Name"; "io.treeverse.utils.B"]
           "io.treeverse.utils.B" Scenario.handle_B Scenario.after_C_B).
  vm_compute; reflexivity.
Defined.

(** C9: in a context reached from a fresh one by any calls of [resolve],
    resolving a name that the module source does not hold returns
    [NotFound] and gives back the context, and so its cache, as it was;
    after any further calls of [resolve] the name is still not cached and
    resolving it returns [NotFound] again. *)
Theorem resolve_absent_not_found (source : gmap string ClassNode)
    (registry : gmap string Class) (before after : list string) (name : string) :
  source !! name = None ->
  Loader.resolve name (Loader.resolveAll before (Loader.create source registry))
    = (inl Loader.NotFound, Loader.resolveAll before (Loader.create source registry))
  /\ Loader.cache
       (Loader.resolve name (Loader.resolveAll before (Loader.create source registry))).2
     = Loader.cache (Loader.resolveAll before (Loader.create source registry))
  /\ Loader.cache
       (Loader.resolveAll after
          (Loader.resolve name
             (Loader.resolveAll before (Loader.create source registry))).2) !! name
     = None
  /\ Loader.resolve name
       (Loader.resolveAll after
          (Loader.resolve name
             (Loader.resolveAll before (Loader.create source registry))).2)
     = (inl Loader.NotFound,
        Loader.resolveAll after
          (Loader.resolve name
             (Loader.resolveAll before (Loader.create source registry))).2).
Proof.
  intros Habs.
  set (ctx := Loader.resolveAll before (Loader.create source registry)).
  set (ctx' := Loader.resolveAll after (Loader.resolve name ctx).2).
  pose proof (resolveAll_consistent source registry before _
                (create_consistent source registry)) as Hc. fold ctx in Hc.
  pose proof (resolve_absent source registry name ctx Hc Habs) as Hr.
  assert (Hc' : Loader.consistent source registry ctx').
  { apply resolveAll_consistent. now apply resolve_consistent. }
  split; [exact Hr|]. split; [now rewrite Hr|]. split.
  - now apply (consistent_absent source registry).
  - now apply (resolve_absent source registry).
Qed.

Lemma resolve_absent_not_found_witness :
  Example.source !! "missing.Name" = None
  /\ Loader.resolve "missing.Name" Scenario.after_C
     = (inl Loader.NotFound, Scenario.after_C).
Proof.
  split; [vm_compute; reflexivity|].
  apply (resolve_absent_not_found Example.source Example.registry
           ["io.treeverse.utils.C"] [] "missing.Name").
  vm_compute; reflexivity.
Defined.

(** ** The local block adapter *)

(** The digest function agrees with the test suite of RFC 1321. *)
Lemma md5_test_suite :
  Go.EncodeToString (Go.md5_digest (Go.bytes "")) = "d41d8cd98f00b204e9800998ecf8427e"
  /\ Go.EncodeToString (Go.md5_digest (Go.bytes "a")) = "0cc175b9c0f1b6a831c399e269772661"
  /\ Go.EncodeToString (Go.md5_digest (Go.bytes "abc")) = "900150983cd24fb0d6963f7d28e17f72"
  /\ Go.EncodeToString (Go.md5_digest (Go.bytes "message digest"))
     = "f96b697d7cb7938d525a2f31aaf161d0"
  /\ Go.EncodeToString (Go.md5_digest (Go.bytes "abcdefghijklmnopqrstuvwxyz"))
     = "c3fcd3d76192e4007dfb496cca67e13b"
  /\ Go.EncodeToString
       (Go.md5_digest
          (Go.bytes "ABCDEFGHIJKLMNOPQRSTUVWXYZabcdefghijklmnopqrstuvwxyz0123456789"))
     = "d174ab98d277d9f5a5611c2c9f419d9f"
  /\ Go.EncodeToString
       (Go.md5_digest
          (Go.bytes ("1234567890123456789012345678901234567890"
                       +:+ "1234567890123456789012345678901234567890")))
     = "57edf4a22be3c955ac49da2e2107b67a".
Proof. repeat split; vm_compute; reflexivity. Qed.

Section Hex.

Lemma hex_nibbles v :
  Go.fromHexChar (Go.hexDigit (Z.shiftr (Go.byteZ v) 4)) = Some (Z.shiftr (Go.byteZ v) 4)
  /\ Go.fromHexChar (Go.hexDigit (Z.land (Go.byteZ v) 15)) = Some (Z.land (Go.byteZ v) 15)
  /\ Go.Zbyte (Z.lor (Z.shiftl (Z.shiftr (Go.byteZ v) 4) 4) (Z.land (Go.byteZ v) 15)) = v.
Proof.
  destruct v as [[] [] [] [] [] [] [] []]; vm_compute; repeat split; reflexivity.
Qed.

Lemma bytes_String c s : Go.bytes (String c s) = c :: Go.bytes s.
Proof. reflexivity. Qed.

Lemma bytes_append s t : Go.bytes (s +:+ t) = Go.bytes s ++ Go.bytes t.
Proof.
  induction s as [|c s IH]; [reflexivity|].
  rewrite append_cons, !bytes_String, IH. reflexivity.
Qed.

Lemma Decode_encoded b rest :
  Go.Decode (Go.bytes (Go.EncodeToString b) ++ rest)
  = (b ++ (Go.Decode rest).1, (Go.Decode rest).2).
Proof.
  induction b as [|v b IH].
  - simpl. now destruct (Go.Decode rest).
  - cbn [Go.EncodeToString]. rewrite !bytes_String. cbn [app Go.Decode].
    destruct (hex_nibbles v) as (-> & -> & ->). rewrite IH. reflexivity.
Qed.

Lemma EncodeToString_app b1 b2 :
  Go.EncodeToString (b1 ++ b2) = Go.EncodeToString b1 +:+ Go.EncodeToString b2.
Proof.
  induction b1 as [|v b1 IH]; [reflexivity|].
  cbn [app Go.EncodeToString]. rewrite !append_cons, IH. reflexivity.
Qed.

End Hex.

(** Decoding what [hex.EncodeToString] wrote gives the bytes back, with
    no error. *)
Theorem hex_round_trip (b : list ascii) :
  Go.DecodeString (Go.EncodeToString b) = (b, None).
Proof.
  unfold Go.DecodeString.
  rewrite <- (app_nil_r (Go.bytes (Go.EncodeToString b))), Decode_encoded.
  simpl. now rewrite app_nil_r.
Qed.

Section Strings.

Lemma length_append s t :
  String.length (s +:+ t) = String.length s + String.length t.
Proof.
  induction s as [|c s IH]; [reflexivity|]. rewrite append_cons. simpl. now rewrite IH.
Qed.

Lemma substring_0_0 s : String.substring 0 0 s = "".
Proof. now destruct s. Qed.

Lemma substring_prefix s t :
  String.substring 0 (String.length s) (s +:+ t) = s.
Proof.
  induction s as [|c s IH]; [apply substring_0_0|].
  rewrite append_cons. simpl. now rewrite IH.
Qed.

Lemma substring_skip s t n m :
  String.substring (String.length s + n) m (s +:+ t) = String.substring n m t.
Proof.
  induction s as [|c s IH]; [reflexivity|]. rewrite append_cons. exact IH.
Qed.

Lemma substring_all s : String.substring 0 (String.length s) s = s.
Proof. rewrite <- (append_empty_r s) at 2. apply substring_prefix. Qed.

Lemma compare_refl_ascii c : Ascii.compare c c = Eq.
Proof. unfold Ascii.compare. apply N.compare_refl. Qed.

Lemma compare_common_prefix p x y :
  String.compare (p +:+ x) (p +:+ y) = String.compare x y.
Proof.
  induction p as [|c p IH]; [reflexivity|].
  rewrite !append_cons. simpl. now rewrite compare_refl_ascii.
Qed.

End Strings.

Section ETags.

Lemma stripQuotes_quoted h :
  Go.stripQuotes (Go.quote +:+ h +:+ Go.quote) = Go.Return h.
Proof.
  unfold Go.stripQuotes, Go.HasPrefix, Go.HasSuffix, Go.slice, Go.len, Go.quote.
  rewrite !append_cons, !append_empty_l. cbn [String.length].
  rewrite length_append. cbn [String.length].
  replace (S (String.length h + 1) - 1) with (S (String.length h + 0)) by lia.
  cbn [String.substring]. rewrite substring_0_0, substring_skip. cbn [String.substring].
  rewrite String.eqb_refl.
  replace (Z.of_nat 1 <=? Z.of_nat (S (String.length h + 1)))%Z with true
    by (symmetry; apply Z.leb_le; lia).
  cbn [andb].
  replace ((0 <=? 1)%Z && (1 <=? Z.of_nat (S (String.length h + 1)) - 1)%Z
           && (Z.of_nat (S (String.length h + 1)) - 1
               <=? Z.of_nat (S (String.length h + 1)))%Z)
    with true by (symmetry; rewrite !andb_true_iff, !Z.leb_le; lia).
  replace (Z.to_nat (Z.of_nat (S (String.length h + 1)) - 1 - 1)) with (String.length h)
    by lia.
  change (Z.to_nat 1) with 1. cbn [String.substring].
  now rewrite substring_prefix.
Qed.


Lemma collectETags_app xs ys acc :
  Go.collectETags (xs ++ ys) acc =
  match Go.collectETags xs acc with
  | Go.Return acc' => Go.collectETags ys acc'
  | Go.Panic x => Go.Panic x
  end.
Proof.
  revert acc. induction xs as [|[part|] xs IH]; intros acc; cbn [app Go.collectETags];
    [reflexivity| |reflexivity].
  destruct (Go.ETag part) as [e|]; [|reflexivity].
  destruct (Go.stripQuotes e); [apply IH|reflexivity].
Qed.



Lemma collectETags_acc parts acc :
  Go.collectETags parts acc =
  match Go.collectETags parts [] with
  | Go.Return strs => Go.Return (acc ++ strs)
  | Go.Panic x => Go.Panic x
  end.
Proof.
  revert acc. induction parts as [|[part|] parts IH]; intros acc; cbn [Go.collectETags];
    [now rewrite app_nil_r| |reflexivity].
  destruct (Go.ETag part) as [e|]; [|reflexivity].
  destruct (Go.stripQuotes e) as [e'|x]; [|reflexivity].
  rewrite (IH (acc ++ [e'])), (IH ([] ++ [e'])).
  destruct (Go.collectETags parts []); [|reflexivity].
  now rewrite <- app_assoc.
Qed.

End ETags.


(** X10: whatever [computeETag] returns is the hex text of some bytes
    followed by the MD5 digest of the empty input: the hash it creates is
    never written to, so the digest of nothing is appended to the decoded
    ETags. *)
Theorem computeETag_ends_with_empty_digest (Parts : list (option Go.CompletedPart))
    (s : string) :
  Go.computeETag Parts = Go.Return s ->
  exists b, s = Go.EncodeToString b +:+ "d41d8cd98f00b204e9800998ecf8427e".
Proof.
  unfold Go.computeETag. destruct (Go.collectETags Parts []) as [strs|]; [|discriminate].
  destruct (Go.DecodeString (Go.Join_empty strs)) as [b err]. intros [= <-].
  exists b. unfold Go.md5_Sum. now rewrite EncodeToString_app.
Qed.

Lemma computeETag_ends_with_empty_digest_witness :
  Go.computeETag [Some {| Go.ETag := Some "0cc175b9"; Go.PartNumber := Some 1%Z |}]
    = Go.Return "0cc175b9d41d8cd98f00b204e9800998ecf8427e"
  /\ exists b, "0cc175b9d41d8cd98f00b204e9800998ecf8427e"
               = Go.EncodeToString b +:+ "d41d8cd98f00b204e9800998ecf8427e".
Proof.
  split; [vm_compute; reflexivity|].
  apply (computeETag_ends_with_empty_digest
           [Some {| Go.ETag := Some "0cc175b9"; Go.PartNumber := Some 1%Z |}]).
  vm_compute; reflexivity.
Defined.

Section Concatenation.

Lemma append_assoc s1 s2 s3 : (s1 +:+ s2) +:+ s3 = s1 +:+ (s2 +:+ s3).
Proof.
  induction s1 as [|c s1 IH]; [reflexivity|]. now rewrite !append_cons, IH.
Qed.

Lemma Join_empty_cons x a : Go.Join_empty (x :: a) = x +:+ Go.Join_empty a.
Proof. reflexivity. Qed.

Lemma Join_empty_app a b :
  Go.Join_empty (a ++ b) = Go.Join_empty a +:+ Go.Join_empty b.
Proof.
  induction a as [|x a IH]; [reflexivity|].
  cbn [app]. now rewrite !Join_empty_cons, IH, append_assoc.
Qed.

Lemma Decode_joined ds :
  Go.Decode (Go.bytes (Go.Join_empty (map Go.EncodeToString ds))) = (concat ds, None).
Proof.
  induction ds as [|d ds IH]; [reflexivity|].
  cbn [map concat]. now rewrite Join_empty_cons, bytes_append, Decode_encoded, IH.
Qed.

Lemma EncodeToString_concat ds :
  Go.EncodeToString (concat ds) = Go.Join_empty (map Go.EncodeToString ds).
Proof.
  induction ds as [|d ds IH]; [reflexivity|].
  cbn [map concat]. now rewrite Join_empty_cons, EncodeToString_app, IH.
Qed.

Lemma collectETags_uploaded (parts : list (list ascii * option Z)) acc :
  Go.collectETags
    (map (fun dp => Some {| Go.ETag := Some (Go.partETag dp.1); Go.PartNumber := dp.2 |})
       parts) acc
  = Go.Return (acc ++ map (fun dp => Go.EncodeToString (Go.md5_digest dp.1)) parts).
Proof.
  revert acc. induction parts as [|[data pn] parts IH]; intros acc.
  - simpl. now rewrite app_nil_r.
  - cbn [map Go.collectETags Go.ETag fst snd].
    change (Go.partETag data)
      with (Go.quote +:+ Go.EncodeToString (Go.md5_digest data) +:+ Go.quote).
    rewrite stripQuotes_quoted, IH, <- app_assoc. reflexivity.
Qed.

(** Pairs of characters: the way [hex.Decode] walks its input. *)
Lemma pair_induction {A} (P : list A -> Prop) :
  P [] -> (forall a, P [a]) -> (forall a b l, P l -> P (a :: b :: l)) ->
  forall l, P l.
Proof.
  intros H0 H1 H2 l. enough (P l /\ forall a, P (a :: l)) by tauto.
  induction l as [|b l [IHl IHbl]]; split; auto.
Qed.

Lemma Decode_stops x y :
  existsb (fun c => negb (Go.isHexChar c)) x = true ->
  Go.Decode (x ++ y) = Go.Decode x.
Proof.
  induction x as [|a|a b x IH] using pair_induction.
  - discriminate.
  - cbn [existsb]. rewrite orb_false_r. unfold Go.isHexChar.
    destruct (Go.fromHexChar a) eqn:E; [discriminate|]. intros _.
    destruct y as [|b y]; cbn [app Go.Decode]; now rewrite E.
  - cbn [existsb app Go.Decode]. unfold Go.isHexChar at 1 2.
    destruct (Go.fromHexChar a); [|reflexivity].
    destruct (Go.fromHexChar b); [|reflexivity].
    cbn [negb orb]. intros H. now rewrite (IH H).
Qed.

End Concatenation.

(** X11: for parts that carry the ETags [UploadPart] returned (the digest
    of the part in hex, between double quotes), [computeETag] returns the
    digests in hex, one after the other in part order, followed by the
    digest of the empty input. *)
Theorem computeETag_of_uploaded_parts (parts : list (list ascii * option Z)) :
  Go.computeETag
    (map (fun dp => Some {| Go.ETag := Some (Go.partETag dp.1); Go.PartNumber := dp.2 |})
       parts)
  = Go.Return
      (Go.Join_empty (map (fun dp => Go.EncodeToString (Go.md5_digest dp.1)) parts)
         +:+ "d41d8cd98f00b204e9800998ecf8427e").
Proof.
  unfold Go.computeETag, Go.DecodeString. rewrite collectETags_uploaded.
  cbn [app]. rewrite <- (map_map (fun dp => Go.md5_digest dp.1) Go.EncodeToString).
  rewrite Decode_joined. unfold Go.md5_Sum.
  now rewrite EncodeToString_app, EncodeToString_concat.
Qed.

(** X12: let the ETag of a part, quotes taken off, have a character that
    is no hex digit.  Then of the parts after it only a panic counts:
    where [computeETag] panics on the parts up to and including that
    part, it panics in that way on the whole list; else, where it panics
    on the later parts taken alone (a nil part, a nil ETag or an ETag
    that is one double quote among them), it panics in that way; else it
    returns what it returns for the parts up to and including that part,
    decoding having stopped at the character without a word. *)
Theorem computeETag_ignores_parts_after_bad_character
    (pre post : list (option Go.CompletedPart)) (part : Go.CompletedPart)
    (e e' : string) :
  Go.ETag part = Some e ->
  Go.stripQuotes e = Go.Return e' ->
  existsb (fun c => negb (Go.isHexChar c)) (Go.bytes e') = true ->
  Go.computeETag (pre ++ Some part :: post)
  = match Go.computeETag (pre ++ [Some part]) with
    | Go.Panic x => Go.Panic x
    | Go.Return r =>
        match Go.computeETag post with
        | Go.Panic x => Go.Panic x
        | Go.Return _ => Go.Return r
        end
    end.
Proof.
  intros He Hs Hbad. unfold Go.computeETag.
  rewrite !collectETags_app.
  destruct (Go.collectETags pre []) as [A|x]; [|reflexivity].
  cbn [Go.collectETags]. rewrite He, Hs.
  rewrite (collectETags_acc post (A ++ [e'])).
  destruct (Go.collectETags post []) as [B|x].
  - unfold Go.DecodeString.
    rewrite Join_empty_app, bytes_append, Decode_stops.
    + destruct (Go.Decode (Go.bytes (Go.Join_empty (A ++ [e'])))).
      destruct (Go.Decode (Go.bytes (Go.Join_empty B))). reflexivity.
    + rewrite Join_empty_app, bytes_append, existsb_app.
      rewrite Join_empty_cons. change (Go.Join_empty []) with "".
      rewrite append_empty_r, Hbad. apply orb_true_r.
  - destruct (Go.DecodeString (Go.Join_empty (A ++ [e']))). reflexivity.
Qed.

Lemma computeETag_ignores_parts_after_bad_character_witness :
  Go.stripQuotes "0cc175b9-2" = Go.Return "0cc175b9-2"
  /\ Go.computeETag
       [Some {| Go.ETag := Some "0cc175b9-2"; Go.PartNumber := Some 1%Z |};
        Some {| Go.ETag := Some "900150983cd2"; Go.PartNumber := Some 2%Z |}]
     = Go.computeETag
         [Some {| Go.ETag := Some "0cc175b9-2"; Go.PartNumber := Some 1%Z |}]
  /\ Go.computeETag
       [Some {| Go.ETag := Some "0cc175b9-2"; Go.PartNumber := Some 1%Z |};
        Some {| Go.ETag := None; Go.PartNumber := Some 2%Z |}]
     = Go.Panic Go.NilPointerDereference.
Proof.
  split; [vm_compute; reflexivity|]. split.
  - etrans.
    + apply (computeETag_ignores_parts_after_bad_character [ ]
               [Some {| Go.ETag := Some "900150983cd2"; Go.PartNumber := Some 2%Z |}]
               {| Go.ETag := Some "0cc175b9-2"; Go.PartNumber := Some 1%Z |}
               "0cc175b9-2" "0cc175b9-2"); vm_compute; reflexivity.
    + vm_compute; reflexivity.
  - etrans.
    + apply (computeETag_ignores_parts_after_bad_character [ ]
               [Some {| Go.ETag := None; Go.PartNumber := Some 2%Z |}]
               {| Go.ETag := Some "0cc175b9-2"; Go.PartNumber := Some 1%Z |}
               "0cc175b9-2" "0cc175b9-2"); vm_compute; reflexivity.
    + vm_compute; reflexivity.
Defined.

Section PartNames.

Ltac div_lia := Z.to_euclidean_division_equations; lia.

Lemma numDigits_exact fuel k n :
  (k <= S fuel)%nat -> (1 <= k)%nat ->
  (10 ^ Z.of_nat (k - 1) <= n < 10 ^ Z.of_nat k)%Z \/ (k = 1%nat /\ 0 <= n < 10)%Z ->
  Go.numDigits fuel n = k.
Proof.
  revert k n. induction fuel as [|fuel IH]; intros k n Hk Hk1 Hn.
  - assert (k = 1%nat) by lia. subst k. reflexivity.
  - cbn [Go.numDigits]. destruct (Z.ltb_spec n 10) as [Hlt|Hge].
    + destruct Hn as [[Hlo Hhi]|[-> _]]; [|reflexivity].
      destruct k as [|[|k]]; [lia|reflexivity|].
      exfalso. replace (S (S k) - 1)%nat with (S k) in Hlo by lia.
      rewrite Nat2Z.inj_succ, Z.pow_succ_r in Hlo by lia.
      assert (1 <= 10 ^ Z.of_nat k)%Z by (apply Z.pow_le_mono_r with (b := 0%Z); lia).
      lia.
    + destruct Hn as [[Hlo Hhi]|[_ ?]]; [|lia].
      destruct k as [|[|k]]; [lia| |].
      * change (10 ^ Z.of_nat 1)%Z with 10%Z in Hhi. lia.
      * f_equal. apply IH; [lia|lia|]. left.
        replace (S (S k) - 1)%nat with (S k) in Hlo by lia.
        replace (S k - 1)%nat with k by lia.
        rewrite Nat2Z.inj_succ, Z.pow_succ_r in Hlo, Hhi by lia.
        split.
        -- apply Z.div_le_lower_bound; lia.
        -- apply Z.div_lt_upper_bound; lia.
Qed.

Lemma Sprintf_05d_small n :
  (0 <= n < 100000)%Z -> Go.Sprintf_05d n = Go.fixedDigits 5 n.
Proof.
  intros Hn. unfold Go.Sprintf_05d.
  destruct (Z.ltb_spec n 0) as [?|_]; [lia|].
  assert (Hle : (Go.numDigits 19 n <= 5)%nat).
  { destruct (Z.lt_ge_cases n 10) as [?|?];
      [rewrite (numDigits_exact 19 1 n); [lia|lia|lia|right; lia]|].
    destruct (Z.lt_ge_cases n 100) as [?|?];
      [rewrite (numDigits_exact 19 2 n); [lia|lia|lia|left; cbn; lia]|].
    destruct (Z.lt_ge_cases n 1000) as [?|?];
      [rewrite (numDigits_exact 19 3 n); [lia|lia|lia|left; cbn; lia]|].
    destruct (Z.lt_ge_cases n 10000) as [?|?];
      [rewrite (numDigits_exact 19 4 n); [lia|lia|lia|left; cbn; lia]|].
    rewrite (numDigits_exact 19 5 n); [lia|lia|lia|left; cbn; lia]. }
  now rewrite Nat.max_l.
Qed.

Lemma Sprintf_05d_six n :
  (100000 <= n < 1000000)%Z -> Go.Sprintf_05d n = Go.fixedDigits 6 n.
Proof.
  intros Hn. unfold Go.Sprintf_05d.
  destruct (Z.ltb_spec n 0) as [?|_]; [lia|].
  rewrite (numDigits_exact 19 6 n); [reflexivity|lia|lia|left; cbn; lia].
Qed.

Lemma digitChar_compare x y :
  (0 <= x <= 9)%Z -> (0 <= y <= 9)%Z ->
  Ascii.compare (Go.digitChar x) (Go.digitChar y) = (x ?= y)%Z.
Proof.
  intros Hx Hy. unfold Ascii.compare, Go.digitChar, Go.Zbyte.
  rewrite !N_ascii_embedding by (rewrite !Z.mod_small by lia; lia).
  rewrite !Z.mod_small by lia. rewrite Z2N.inj_compare by lia.
  apply Z.add_compare_mono_l.
Qed.

Lemma mod_10_digit z : (0 <= z mod 10 <= 9)%Z.
Proof. pose proof (Z.mod_pos_bound z 10). lia. Qed.

Lemma fixedDigits_5_compare a b :
  (0 <= a < 100000)%Z -> (0 <= b < 100000)%Z ->
  String.compare (Go.fixedDigits 5 a) (Go.fixedDigits 5 b) = (a ?= b)%Z.
Proof.
  intros Ha Hb. cbn [Go.fixedDigits String.compare Z.of_nat Pos.of_succ_nat Pos.succ].
  change (10 ^ Z.of_nat 4)%Z with 10000%Z. change (10 ^ Z.of_nat 3)%Z with 1000%Z.
  change (10 ^ Z.of_nat 2)%Z with 100%Z. change (10 ^ Z.of_nat 1)%Z with 10%Z.
  change (10 ^ Z.of_nat 0)%Z with 1%Z.
  rewrite !digitChar_compare by (apply mod_10_digit).
  symmetry.
  destruct (Z.compare_spec ((a / 10000) mod 10) ((b / 10000) mod 10));
    [|apply Z.compare_lt_iff; div_lia|apply Z.compare_gt_iff; div_lia].
  destruct (Z.compare_spec ((a / 1000) mod 10) ((b / 1000) mod 10));
    [|apply Z.compare_lt_iff; div_lia|apply Z.compare_gt_iff; div_lia].
  destruct (Z.compare_spec ((a / 100) mod 10) ((b / 100) mod 10));
    [|apply Z.compare_lt_iff; div_lia|apply Z.compare_gt_iff; div_lia].
  destruct (Z.compare_spec ((a / 10) mod 10) ((b / 10) mod 10));
    [|apply Z.compare_lt_iff; div_lia|apply Z.compare_gt_iff; div_lia].
  destruct (Z.compare_spec ((a / 1) mod 10) ((b / 1) mod 10));
    [apply Z.compare_eq_iff|apply Z.compare_lt_iff|apply Z.compare_gt_iff]; div_lia.
Qed.

End PartNames.

(** X13: for part numbers from 0 to 99999 the names of the part files of
    one upload compare, as strings, the way the part numbers compare: the
    sorted list of names that [getPartFiles] returns is in part order. *)
Theorem fName_order (uploadId : string) (a b : Z) :
  (0 <= a < 100000)%Z -> (0 <= b < 100000)%Z ->
  String.compare (Go.fName uploadId a) (Go.fName uploadId b) = (a ?= b)%Z.
Proof.
  intros Ha Hb. unfold Go.fName.
  rewrite compare_common_prefix. cbn [String.compare].
  rewrite compare_refl_ascii, !Sprintf_05d_small by assumption.
  now apply fixedDigits_5_compare.
Qed.

Lemma fName_order_witness :
  (0 <= 9 < 100000)%Z /\ (0 <= 10 < 100000)%Z
  /\ String.compare (Go.fName "7d2b" 9) (Go.fName "7d2b" 10) = (9 ?= 10)%Z.
Proof.
  split; [lia|]. split; [lia|]. apply (fName_order "7d2b" 9 10); lia.
Defined.

(** X14: from part number 100000 on the names no longer sort in part
    order: a part numbered 100000 to 199999 has a name that sorts before
    the name of every part numbered 20000 to 99999. *)
Theorem fName_order_breaks (uploadId : string) (a b : Z) :
  (20000 <= a < 100000)%Z -> (100000 <= b < 200000)%Z ->
  String.compare (Go.fName uploadId b) (Go.fName uploadId a) = Lt.
Proof.
  intros Ha Hb. unfold Go.fName.
  rewrite compare_common_prefix. cbn [String.compare].
  rewrite compare_refl_ascii, (Sprintf_05d_small a), (Sprintf_05d_six b) by lia.
  cbn [Go.fixedDigits String.compare Z.of_nat Pos.of_succ_nat Pos.succ].
  change (10 ^ Z.of_nat 5)%Z with 100000%Z. change (10 ^ Z.of_nat 4)%Z with 10000%Z.
  rewrite digitChar_compare by (apply mod_10_digit).
  replace ((b / 100000) mod 10 ?= (a / 10000) mod 10)%Z with Lt; [reflexivity|].
  symmetry. apply Z.compare_lt_iff. Z.to_euclidean_division_equations. lia.
Qed.

Lemma fName_order_breaks_witness :
  (20000 <= 99999 < 100000)%Z /\ (100000 <= 100000 < 200000)%Z
  /\ String.compare (Go.fName "7d2b" 100000) (Go.fName "7d2b" 99999) = Lt.
Proof.
  split; [lia|]. split; [lia|]. apply (fName_order_breaks "7d2b" 99999 100000); lia.
Defined.

(** ** More on the descriptor translation *)

Lemma translateDesc_object_return_witness :
  parameterPart "(I" = "(I"
  /\ Regex.isName "java/lang/String" = true
  /\ Regex.isLiteral (getName Example.trait_A) = true
  /\ AsInterface.translateDesc Example.trait_A "(I)Ljava/lang/String;"
     = Ok "(I)Lio/treeverse/utils/A;".
Proof.
  split; [reflexivity|]. split; [reflexivity|]. split; [reflexivity|].
  apply (translateDesc_object_return Example.trait_A "(I" "j" "ava/lang/String");
    reflexivity.
Defined.

Section Replacement.

Variable iface : Class.

Lemma replaceAllIn_from_plain s :
  parameterPart s = s ->
  Regex.replaceAllIn_from AsInterface.descReturnType
    (fun _ => ")L" +:+ replaceAll_dot_slash (getName iface) +:+ ";") 0 s = Ok s.
Proof.
  intros Hs. rewrite <- (append_empty_r s) at 1.
  rewrite replaceAllIn_from_prefix by assumption.
  cbn. now rewrite append_empty_r.
Qed.

Lemma expand_literal_prefix m lit r :
  Regex.isLiteral lit = true ->
  Regex.expand m None (lit +:+ r) = tl ← Regex.expand m None r; Ok (lit +:+ tl).
Proof.
  induction lit as [|c lit IH]; intros H.
  - rewrite append_empty_l. now destruct (Regex.expand m None r).
  - cbn [Regex.isLiteral] in H. apply andb_prop in H as [H Hl].
    apply andb_prop in H as [Hb Hd]. apply negb_true_iff in Hb, Hd.
    rewrite append_cons. cbn [Regex.expand]. rewrite Hb, Hd, (IH Hl).
    now destruct (Regex.expand m None r).
Qed.

Lemma replaceAll_dot_slash_app s t :
  replaceAll_dot_slash (s +:+ t) = replaceAll_dot_slash s +:+ replaceAll_dot_slash t.
Proof.
  induction s as [|c s IH]; [reflexivity|].
  rewrite append_cons. cbn [replaceAll_dot_slash]. now rewrite append_cons, IH.
Qed.

Lemma replaceAllIn_from_total skip s :
  Regex.isLiteral (getName iface) = true ->
  exists out,
    Regex.replaceAllIn_from AsInterface.descReturnType
      (fun _ => ")L" +:+ replaceAll_dot_slash (getName iface) +:+ ";") skip s = Ok out.
Proof.
  intros Hl. revert skip. induction s as [|c t IH]; intros skip; [simpl; eauto|].
  destruct skip as [|k]; [|apply IH].
  rewrite replaceAllIn_from_cons.
  destruct (AsInterface.descReturnType (String c t)) as [m|].
  - unfold Regex.appendReplacement. rewrite expand_literal.
    + destruct (IH (String.length (Regex.matched m) - 1)) as [tl ->]. cbn. eauto.
    + change (")L" +:+ replaceAll_dot_slash (getName iface) +:+ ";")
        with (String ")" (String "L" (replaceAll_dot_slash (getName iface) +:+ ";"))).
      cbn [Regex.isLiteral Ascii.eqb Bool.eqb negb andb].
      rewrite isLiteral_app, replaceAll_dot_slash_literal by assumption. reflexivity.
  - destruct (IH 0) as [tl ->]. cbn. eauto.
Qed.

End Replacement.

(** X2: a descriptor whose return type the pattern does not match (void,
    a primitive type, an array, a class with a dollar sign in its name)
    is handed on as it is, whatever the interface. *)
Theorem translateDesc_keeps_other_returns (iface : Class) (params ret : string) :
  parameterPart params = params ->
  parameterPart ret = ret ->
  AsInterface.descReturnType (String ")" ret) = None ->
  AsInterface.translateDesc iface (params +:+ String ")" ret)
  = Ok (params +:+ String ")" ret).
Proof.
  intros Hp Hr Hno. unfold AsInterface.translateDesc, Regex.replaceAllIn.
  rewrite replaceAllIn_from_prefix, replaceAllIn_from_cons, Hno by assumption.
  now rewrite replaceAllIn_from_plain.
Qed.

Lemma translateDesc_keeps_other_returns_witness :
  parameterPart "(I" = "(I"
  /\ AsInterface.translateDesc Example.trait_A "(I)[Lio/treeverse/utils/B;"
     = Ok "(I)[Lio/treeverse/utils/B;"
  /\ AsInterface.translateDesc Example.trait_A "(I)Lorg/rocksdb/Options$Builder;"
     = Ok "(I)Lorg/rocksdb/Options$Builder;".
Proof.
  split; [reflexivity|]. split.
  - apply (translateDesc_keeps_other_returns Example.trait_A "(I"
             "[Lio/treeverse/utils/B;"); reflexivity.
  - apply (translateDesc_keeps_other_returns Example.trait_A "(I"
             "Lorg/rocksdb/Options$Builder;"); reflexivity.
Defined.

(** X3: an interface whose binary name has a dollar sign followed by
    anything but a digit (an interface nested in a class or object) makes
    the translation of every descriptor that returns a plainly named
    class throw [IllegalArgumentException]: the replacement text takes
    the dollar sign for a group reference. *)
Theorem translateDesc_nested_interface (iface : Class) (pre post params nm : string)
    (c n : ascii) :
  getName iface = pre +:+ String "$" (String c post) ->
  Regex.isLiteral pre = true ->
  Regex.isDigit c = false ->
  parameterPart params = params ->
  Regex.isName (String n nm) = true ->
  AsInterface.translateDesc iface (params +:+ ")L" +:+ String n nm +:+ ";")
  = Throw IllegalArgumentException.
Proof.
  intros Hname Hpre Hc Hp Hn. unfold AsInterface.translateDesc, Regex.replaceAllIn.
  rewrite replaceAllIn_from_prefix by assumption.
  change (")L" +:+ String n nm +:+ ";")
    with (String ")" (String "L" (String n nm +:+ ";"))).
  rewrite replaceAllIn_from_cons. unfold AsInterface.descReturnType.
  cbn [Ascii.eqb Bool.eqb andb].
  rewrite (spanName_name (String n nm) ";" "" Hn eq_refl).
  cbn [Ascii.eqb Bool.eqb andb].
  unfold Regex.appendReplacement. rewrite Hname, replaceAll_dot_slash_app, append_assoc.
  change (")L" +:+ replaceAll_dot_slash pre
            +:+ replaceAll_dot_slash (String "$" (String c post)) +:+ ";")
    with ((")L" +:+ replaceAll_dot_slash pre)
            +:+ (replaceAll_dot_slash (String "$" (String c post)) +:+ ";")).
  rewrite expand_literal_prefix.
  - cbn [replaceAll_dot_slash Ascii.eqb Bool.eqb]. rewrite !append_cons.
    cbn [Regex.expand Ascii.eqb Bool.eqb].
    replace (Regex.isDigit (if Ascii.eqb c "." then "/"%char else c)) with false;
      [reflexivity|].
    destruct (Ascii.eqb c "."); [reflexivity|now rewrite Hc].
  - change (")L" +:+ replaceAll_dot_slash pre)
      with (String ")" (String "L" (replaceAll_dot_slash pre))).
    cbn [Regex.isLiteral Ascii.eqb Bool.eqb negb andb].
    now apply replaceAll_dot_slash_literal.
Qed.

Lemma translateDesc_nested_interface_witness :
  Regex.isLiteral "shading.rocksdb" = true
  /\ Regex.isDigit "O" = false
  /\ AsInterface.translateDesc {| getName := "shading.rocksdb$Options" |}
       "(I)Lorg/rocksdb/Options;" = Throw IllegalArgumentException.
Proof.
  split; [reflexivity|]. split; [reflexivity|].
  apply (translateDesc_nested_interface {| getName := "shading.rocksdb$Options" |}
           "shading.rocksdb" "ptions" "(I" "rg/rocksdb/Options" "O" "o");
    reflexivity.
Defined.

(** X4: with an interface whose binary name has no dollar sign and no
    backslash the visitor never throws: every class, whatever its
    methods, comes out as a class. *)
Theorem accept_never_throws (iface : Class) (c : ClassNode) :
  Regex.isLiteral (getName iface) = true ->
  exists lines c', AsInterface.accept iface c = Ok (lines, c').
Proof.
  intros Hl. unfold AsInterface.accept. cbn [AsInterface.visit mbind result_bind bind].
  assert (Hms : forall ms, exists out, AsInterface.acceptMethods iface ms = Ok out).
  { induction ms as [|m ms [[lines ms'] IH]]; [simpl; eauto|].
    cbn [AsInterface.acceptMethods]. unfold AsInterface.acceptMethod, AsInterface.visitMethod.
    unfold AsInterface.translateDesc, Regex.replaceAllIn.
    destruct (replaceAllIn_from_total iface 0 (m_desc m) Hl) as [d ->].
    cbn [mbind result_bind bind]. rewrite IH. cbn. eauto. }
  destruct (Hms (c_methods c)) as [[lines ms] ->]. cbn. eauto.
Qed.

Lemma accept_never_throws_witness :
  Regex.isLiteral (getName Example.trait_A) = true
  /\ exists lines c', AsInterface.accept Example.trait_A Example.class_H = Ok (lines, c').
Proof.
  split; [reflexivity|].
  apply (accept_never_throws Example.trait_A Example.class_H). reflexivity.
Defined.

(** ** Visitors in a chain *)

Section Chain.

Lemma spanName_spec u :
  u = (Regex.spanName u).1 +:+ (Regex.spanName u).2
  /\ Regex.isName (Regex.spanName u).1 = true.
Proof.
  induction u as [|c u [IH1 IH2]]; [split; reflexivity|].
  cbn [Regex.spanName]. destruct (Regex.isNameChar c) eqn:E; [|split; reflexivity].
  destruct (Regex.spanName u) as [nm rest]. cbn [fst snd] in *.
  rewrite append_cons, <- IH1. cbn [Regex.isName]. now rewrite E, IH2.
Qed.

Lemma descReturnType_unfold u :
  AsInterface.descReturnType (String ")" (String "L" u)) =
  match (Regex.spanName u).1 with
  | String n nm =>
      if Regex.startsSemicolon (Regex.spanName u).2
      then Some {| Regex.matched := ")L" +:+ String n nm +:+ ";";
                   Regex.group1 := String n nm |}
      else None
  | "" => None
  end.
Proof.
  unfold AsInterface.descReturnType. cbn [Ascii.eqb Bool.eqb andb].
  destruct (Regex.spanName u) as [[|n nm] [|e rest]]; reflexivity.
Qed.

Lemma paren_not_name : Regex.isNameChar ")" = false.
Proof. reflexivity. Qed.

Lemma spanName_ext u u' :
  parameterPart u = parameterPart u' ->
  (Regex.spanName u).1 = (Regex.spanName u').1
  /\ Regex.startsSemicolon (Regex.spanName u).2 = Regex.startsSemicolon (Regex.spanName u').2.
Proof.
  revert u'. induction u as [|c u IH]; intros [|c' u'] H; cbn [parameterPart] in H.
  - split; reflexivity.
  - destruct (Ascii.eqb_spec c' ")") as [->|]; [|discriminate]. split; reflexivity.
  - destruct (Ascii.eqb_spec c ")") as [->|]; [|discriminate]. split; reflexivity.
  - destruct (Ascii.eqb_spec c ")") as [->|Hc], (Ascii.eqb_spec c' ")") as [->|Hc'];
      try discriminate; [split; reflexivity|].
    injection H as <- H. cbn [Regex.spanName].
    destruct (Regex.isNameChar c); [|split; reflexivity].
    destruct (IH u' H) as [H1 H2].
    destruct (Regex.spanName u) as [nm r], (Regex.spanName u') as [nm' r'].
    cbn [fst snd] in *. now subst.
Qed.

Lemma descReturnType_ext c t t' :
  parameterPart t = parameterPart t' ->
  AsInterface.descReturnType (String c t) = AsInterface.descReturnType (String c t').
Proof.
  intros H.
  destruct (Ascii.eqb_spec c ")") as [->|Hc].
  - destruct t as [|d u], t' as [|d' u']; cbn [parameterPart] in H.
    + reflexivity.
    + destruct (Ascii.eqb_spec d' ")") as [->|]; [reflexivity|discriminate].
    + destruct (Ascii.eqb_spec d ")") as [->|]; [reflexivity|discriminate].
    + destruct (Ascii.eqb_spec d ")") as [->|Hd], (Ascii.eqb_spec d' ")") as [->|Hd'];
        try discriminate; [reflexivity|].
      injection H as <- H.
      destruct (Ascii.eqb_spec d "L") as [->|HL].
      * rewrite !descReturnType_unfold. destruct (spanName_ext u u' H) as [-> ->].
        reflexivity.
      * apply Ascii.eqb_neq in HL. unfold AsInterface.descReturnType.
        now rewrite HL, !andb_false_r.
  - apply Ascii.eqb_neq in Hc. unfold AsInterface.descReturnType.
    destruct t, t'; now rewrite ?Hc.
Qed.

Lemma descReturnType_inv s m :
  AsInterface.descReturnType s = Some m ->
  exists n nm rest,
    s = ")L" +:+ String n nm +:+ String ";" rest
    /\ Regex.isName (String n nm) = true
    /\ Regex.matched m = ")L" +:+ String n nm +:+ ";".
Proof.
  destruct s as [|c [|d u]]; try discriminate.
  intros H. pose proof (descReturnType_head _ _ _ H) as ->.
  destruct (Ascii.eqb_spec d "L") as [->|HL].
  - rewrite descReturnType_unfold in H.
    destruct (spanName_spec u) as [Hu Hn].
    destruct (Regex.spanName u) as [[|n nm] r]; [discriminate|]. cbn [fst snd] in *.
    destruct r as [|e rest]; [discriminate|]. cbn [Regex.startsSemicolon] in H.
    destruct (Ascii.eqb_spec e ";") as [->|]; [|discriminate].
    injection H as <-. exists n, nm, rest. cbn [Regex.matched]. repeat split; [|exact Hn].
    rewrite Hu. reflexivity.
  - apply Ascii.eqb_neq in HL. unfold AsInterface.descReturnType in H.
    now rewrite HL, andb_false_r in H.
Qed.

Lemma descReturnType_name n nm rest :
  Regex.isName (String n nm) = true ->
  AsInterface.descReturnType (")L" +:+ String n nm +:+ String ";" rest)
  = Some {| Regex.matched := ")L" +:+ String n nm +:+ ";"; Regex.group1 := String n nm |}.
Proof.
  intros Hn.
  change (")L" +:+ String n nm +:+ String ";" rest)
    with (String ")" (String "L" (String n nm +:+ String ";" rest))).
  rewrite descReturnType_unfold, (spanName_name (String n nm) ";" rest Hn eq_refl).
  reflexivity.
Qed.

Lemma replaceAllIn_from_skipped replacer x rest :
  Regex.replaceAllIn_from AsInterface.descReturnType replacer (String.length x) (x +:+ rest)
  = Regex.replaceAllIn_from AsInterface.descReturnType replacer 0 rest.
Proof.
  induction x as [|c x IH]; [now destruct rest|]. rewrite append_cons. exact IH.
Qed.

(** A match at the head, spelled out. *)
Lemma replaceAllIn_from_match replacer n nm rest :
  Regex.isName (String n nm) = true ->
  Regex.replaceAllIn_from AsInterface.descReturnType replacer 0
    (")L" +:+ String n nm +:+ String ";" rest)
  = r ← Regex.appendReplacement
          {| Regex.matched := ")L" +:+ String n nm +:+ ";"; Regex.group1 := String n nm |}
          (replacer {| Regex.matched := ")L" +:+ String n nm +:+ ";";
                       Regex.group1 := String n nm |});
    tl ← Regex.replaceAllIn_from AsInterface.descReturnType replacer 0 rest;
    Ok (r +:+ tl).
Proof.
  intros Hn.
  assert (Hsplit : ")L" +:+ String n nm +:+ String ";" rest
                   = String ")" (("L" +:+ String n nm +:+ ";") +:+ rest)).
  { transitivity (String ")" (String "L" ((String n nm +:+ ";") +:+ rest)));
      [|reflexivity].
    rewrite append_assoc. reflexivity. }
  rewrite Hsplit at 1. rewrite replaceAllIn_from_cons, <- Hsplit, descReturnType_name by assumption.
  cbn [Regex.matched].
  change (String.length (")L" +:+ String n nm +:+ ";") - 1)
    with (String.length ("L" +:+ String n nm +:+ ";") - 0).
  now rewrite Nat.sub_0_r, replaceAllIn_from_skipped.
Qed.

Lemma isNameChar_literal c :
  Regex.isNameChar c = true -> Ascii.eqb c "\" = false /\ Ascii.eqb c "$" = false.
Proof.
  destruct c as [[] [] [] [] [] [] [] []]; vm_compute; intros H;
    (discriminate || (split; reflexivity)).
Qed.

Lemma isName_literal s : Regex.isName s = true -> Regex.isLiteral s = true.
Proof.
  induction s as [|c s IH]; [reflexivity|]. cbn [Regex.isName Regex.isLiteral].
  intros H. apply andb_prop in H as [Hc Hs].
  destruct (isNameChar_literal c Hc) as [-> ->]. now rewrite IH.
Qed.

Lemma appendReplacement_literal m r :
  Regex.isLiteral r = true -> Regex.appendReplacement m (")L" +:+ r +:+ ";") = Ok (")L" +:+ r +:+ ";").
Proof.
  intros H. unfold Regex.appendReplacement. apply expand_literal.
  change (")L" +:+ r +:+ ";") with (String ")" (String "L" (r +:+ ";"))).
  cbn [Regex.isLiteral Ascii.eqb Bool.eqb negb andb]. now rewrite isLiteral_app, H.
Qed.

Variable i2 : Class.
Variables (n1 : ascii) (nm1 : string).
Hypothesis name1_plain : Regex.isName (String n1 nm1) = true.
Hypothesis name2_literal : Regex.isLiteral (getName i2) = true.

Lemma translate_twice k d d1 :
  String.length d <= k ->
  Regex.replaceAllIn_from AsInterface.descReturnType
    (fun _ => ")L" +:+ String n1 nm1 +:+ ";") 0 d = Ok d1 ->
  Regex.replaceAllIn_from AsInterface.descReturnType
    (fun _ => ")L" +:+ replaceAll_dot_slash (getName i2) +:+ ";") 0 d1
  = Regex.replaceAllIn_from AsInterface.descReturnType
      (fun _ => ")L" +:+ replaceAll_dot_slash (getName i2) +:+ ";") 0 d.
Proof.
  revert d d1. induction k as [|k IH]; intros d d1 Hk H.
  - destruct d; [|simpl in Hk; lia]. now injection H as <-.
  - destruct d as [|c t]; [now injection H as <-|].
    destruct (AsInterface.descReturnType (String c t)) as [m|] eqn:E.
    + destruct (descReturnType_inv _ _ E) as (n & nm & rest & Hd & Hn & _).
      rewrite Hd in *. rewrite replaceAllIn_from_match in H |- * by assumption.
      rewrite appendReplacement_literal in H by now apply isName_literal.
      rewrite appendReplacement_literal by now apply replaceAll_dot_slash_literal.
      apply bind_Ok_inv in H as (r & Hr & H). injection Hr as <-.
      apply bind_Ok_inv in H as (tl & Htl & H). injection H as <-.
      rewrite !append_assoc. change (";" +:+ tl) with (String ";" tl).
      rewrite replaceAllIn_from_match, appendReplacement_literal
        by (assumption || now apply replaceAll_dot_slash_literal).
      rewrite (IH rest tl); [reflexivity| |assumption].
      change (")L" +:+ String n nm +:+ String ";" rest)
        with (String ")" (String "L" (String n nm +:+ String ";" rest))) in Hk.
      cbn [String.length] in Hk. rewrite length_append in Hk.
      cbn [String.length] in Hk. lia.
    + rewrite replaceAllIn_from_cons, E in H |- *.
      apply bind_Ok_inv in H as (tl & Htl & H). injection H as <-.
      rewrite replaceAllIn_from_cons.
      rewrite (descReturnType_ext c tl t), E.
      * rewrite (IH t tl); [reflexivity| |assumption]. simpl in Hk. lia.
      * apply (replaceAllIn_parameterPart (fun _ => ")L" +:+ String n1 nm1 +:+ ";"));
          [intros _; simpl; eauto|exact Htl].
Qed.

End Chain.

(** X5: let the internal name of the first interface be non-empty and
    made of the characters [a-zA-Z_0-9/] only, and let the name of the
    second interface have no dollar sign and no backslash.  Then a
    descriptor that went through the translation for the first and goes
    through the translation for the second comes out as if only the
    second had run: of two such visitors in a chain the one nearer to the
    writer decides every class return type, and translating twice for the
    same such interface changes nothing more. *)
Theorem translateDesc_last_visitor_wins (i1 i2 : Class) (n1 : ascii) (nm1 : string)
    (desc desc1 : string) :
  AsInterface.Type_getInternalName i1 = String n1 nm1 ->
  Regex.isName (String n1 nm1) = true ->
  Regex.isLiteral (getName i2) = true ->
  AsInterface.translateDesc i1 desc = Ok desc1 ->
  AsInterface.translateDesc i2 desc1 = AsInterface.translateDesc i2 desc.
Proof.
  unfold AsInterface.Type_getInternalName, AsInterface.translateDesc, Regex.replaceAllIn.
  intros Hname Hplain Hlit H. rewrite Hname in H.
  now apply (translate_twice i2 n1 nm1 Hplain Hlit (String.length desc) desc desc1).
Qed.

Lemma translateDesc_last_visitor_wins_witness :
  AsInterface.translateDesc Example.trait_A "(I)Ljava/lang/String;"
    = Ok "(I)Lio/treeverse/utils/A;"
  /\ AsInterface.translateDesc Example.trait_D "(I)Lio/treeverse/utils/A;"
     = AsInterface.translateDesc Example.trait_D "(I)Ljava/lang/String;".
Proof.
  split; [reflexivity|].
  apply (translateDesc_last_visitor_wins Example.trait_A Example.trait_D
           "i" "o/treeverse/utils/A" "(I)Ljava/lang/String;" "(I)Lio/treeverse/utils/A;");
    reflexivity.
Defined.

Lemma acceptMethods_chain (i1 i2 : Class) (n1 : ascii) (nm1 : string) ms lines1 ms1 :
  AsInterface.Type_getInternalName i1 = String n1 nm1 ->
  Regex.isName (String n1 nm1) = true ->
  Regex.isLiteral (getName i2) = true ->
  AsInterface.acceptMethods i1 ms = Ok (lines1, ms1) ->
  exists la lb ms2,
    AsInterface.acceptMethods i2 ms1 = Ok (la, ms2)
    /\ AsInterface.acceptMethods i2 ms = Ok (lb, ms2).
Proof.
  intros Hname Hplain Hlit. revert lines1 ms1.
  induction ms as [|m ms IH]; intros lines1 ms1 H.
  - injection H as <- <-. exists [], [], []. split; reflexivity.
  - cbn [AsInterface.acceptMethods] in H.
    apply bind_Ok_inv in H as ([line m1] & Hm & H).
    apply bind_Ok_inv in H as ([lines ms'] & Hms & H). injection H as <- <-.
    destruct (IH _ _ Hms) as (la & lb & ms2 & Ha & Hb).
    apply acceptMethod_inv in Hm as (Hacc & Hn & Hd & Hsig & Hex & Hcode).
    assert (Htwice : AsInterface.translateDesc i2 (m_desc m1)
                     = AsInterface.translateDesc i2 (m_desc m)).
    { revert Hd. unfold AsInterface.translateDesc, Regex.replaceAllIn.
      unfold AsInterface.Type_getInternalName in Hname. rewrite Hname.
      now apply (translate_twice i2 n1 nm1 Hplain Hlit (String.length (m_desc m))). }
    destruct (replaceAllIn_from_total i2 0 (m_desc m) Hlit) as [d2 Hd2].
    fold (Regex.replaceAllIn AsInterface.descReturnType (m_desc m)
            (fun _ => ")L" +:+ replaceAll_dot_slash (getName i2) +:+ ";")) in Hd2.
    fold (AsInterface.translateDesc i2 (m_desc m)) in Hd2. rewrite Hd2 in Htwice.
    cbn [AsInterface.acceptMethods]. unfold AsInterface.acceptMethod, AsInterface.visitMethod.
    rewrite Htwice, Hd2, Ha, Hb. cbn [mbind result_bind bind vm_access vm_name vm_desc
                                      vm_signature vm_exceptions].
    rewrite Hacc, Hn, Hsig, Hex, Hcode. eauto.
Qed.

(** X6: two visitors in a chain, the internal name of [i1] being
    non-empty and made of the characters [a-zA-Z_0-9/] only and the name
    of [i2] having no dollar sign and no backslash: the class that went
    through the visitor for [i1] goes through the visitor for [i2] too,
    declares the original interfaces followed by the two in that order,
    and has the methods the visitor for [i2] alone gives. *)
Theorem accept_chain (i1 i2 : Class) (n1 : ascii) (nm1 : string) (c c1 : ClassNode)
    (lines1 : list string) :
  AsInterface.Type_getInternalName i1 = String n1 nm1 ->
  Regex.isName (String n1 nm1) = true ->
  Regex.isLiteral (getName i2) = true ->
  AsInterface.accept i1 c = Ok (lines1, c1) ->
  exists lines2 c2 lines c',
    AsInterface.accept i2 c1 = Ok (lines2, c2)
    /\ AsInterface.accept i2 c = Ok (lines, c')
    /\ c_interfaces c2
       = c_interfaces c ++ [AsInterface.Type_getInternalName i1;
                            AsInterface.Type_getInternalName i2]
    /\ c_methods c2 = c_methods c'.
Proof.
  intros Hname Hplain Hlit H.
  apply accept_inv in H as (_ & _ & _ & _ & _ & Hi & l1 & Hms).
  destruct (acceptMethods_chain i1 i2 n1 nm1 _ _ _ Hname Hplain Hlit Hms)
    as (la & lb & ms2 & Ha & Hb).
  unfold AsInterface.accept. cbn [AsInterface.visit mbind result_bind bind].
  rewrite Ha, Hb. cbn. eexists _, _, _, _. repeat split.
  now rewrite Hi, <- app_assoc.
Qed.

Lemma accept_chain_witness :
  AsInterface.accept Example.trait_A Example.class_H
    = Ok (["[DEBUG] name label desc ()Ljava/lang/String; signature null";
           "[DEBUG] name self desc ()Lio/treeverse/utils/B; signature null"],
          Example.class Example.H_name [Example.A_name]
            [Example.method "label" "()Lio/treeverse/utils/A;"
               [Aload 0; Getfield Example.H_name "label"; Areturn];
             Example.method "self" "()Lio/treeverse/utils/A;"
               [Aload 0; Getfield Example.H_name "b"; Areturn]])
  /\ exists lines2 c2 lines c',
       AsInterface.accept Example.trait_D
         (Example.class Example.H_name [Example.A_name]
            [Example.method "label" "()Lio/treeverse/utils/A;"
               [Aload 0; Getfield Example.H_name "label"; Areturn];
             Example.method "self" "()Lio/treeverse/utils/A;"
               [Aload 0; Getfield Example.H_name "b"; Areturn]])
       = Ok (lines2, c2)
       /\ AsInterface.accept Example.trait_D Example.class_H = Ok (lines, c')
       /\ c_interfaces c2
          = c_interfaces Example.class_H
              ++ [AsInterface.Type_getInternalName Example.trait_A;
                  AsInterface.Type_getInternalName Example.trait_D]
       /\ c_methods c2 = c_methods c'.
Proof.
  split; [reflexivity|].
  apply (accept_chain Example.trait_A Example.trait_D "i" "o/treeverse/utils/A"
           Example.class_H _
           ["[DEBUG] name label desc ()Ljava/lang/String; signature null";
            "[DEBUG] name self desc ()Lio/treeverse/utils/B; signature null"]);
    reflexivity.
Defined.

(** ** More on the example of the design note *)

(** X8: [checkcast] lets null through: called with null, the overload
    that casts and forwards ends as the original entry point called with
    null ends, with one more unit of fuel; in the example that is the
    [NullPointerException] of calling [a] on null. *)
Theorem overload_passes_null (ct : gmap string ClassNode)
    (owner name descC descI castTo : string) (h h' : gmap nat Obj)
    (t : nat) (ot : Obj) (m : MethodNode) (fuel : nat) (r : outcome) :
  h !! t = Some ot ->
  selectMethod ct (size ct) (o_class ot) name descI = Some m ->
  m_code m = Example.synthesizedOverload owner name descC castTo ->
  paramCount descC = Some 1 ->
  invoke ct fuel h (VRef t) name descC [VNull] = (h', r) ->
  (exists z, r = Normal (Some (VInt z))) \/ (exists e, r = Thrown e) ->
  invoke ct (S fuel) h (VRef t) name descI [VNull] = (h', r).
Proof.
  intros Ht Hm Hc Hn Horig Hr. cbn [invoke]. rewrite Ht, Hm, Hc.
  unfold Example.synthesizedOverload. cbn [exec lookup list_lookup]. rewrite Hn.
  cbn [drop take rev app]. rewrite Horig.
  destruct Hr as [[z ->]|[e ->]]; reflexivity.
Qed.

Lemma overload_passes_null_witness :
  invoke Example.classes 2 Example.heap0 (VRef 0) "x" "(Lio/treeverse/utils/B;)I" [VNull]
    = (Example.heap0, Thrown NullPointerException)
  /\ invoke Example.classes 3 Example.heap0 (VRef 0) "x" "(Lio/treeverse/utils/A;)I" [VNull]
    = (Example.heap0, Thrown NullPointerException).
Proof.
  split; [vm_compute; reflexivity|].
  apply (overload_passes_null Example.classes
           Example.C_name "x" "(Lio/treeverse/utils/B;)I" "(Lio/treeverse/utils/A;)I"
           Example.B_name Example.heap0 Example.heap0 0
           {| o_class := Example.C_name; o_fields := {["n" := VInt 11]} |}
           Example.C_x_A 2 (Thrown NullPointerException));
    try (vm_compute; reflexivity).
  right. exists NullPointerException. reflexivity.
Defined.

Lemma heapWith_C n :
  Example.heapWith n !! 0
  = Some {| o_class := Example.C_name; o_fields := {["n" := VInt n]} |}.
Proof. reflexivity. Qed.

Lemma heapWith_B n :
  Example.heapWith n !! 1 = Some {| o_class := Example.B_name; o_fields := ∅ |}.
Proof. reflexivity. Qed.

Lemma classes_field_methods :
  selectMethod Example.classes_field (size Example.classes_field) Example.C_name "x"
    "(Lio/treeverse/utils/A;)I" = Some Example.C_x_A
  /\ selectMethod Example.classes_field (size Example.classes_field) Example.C_name "x"
       "(Lio/treeverse/utils/B;)I" = Some Example.C_x_field
  /\ selectMethod Example.classes_field (size Example.classes_field) Example.B_name "a"
       "(I)I" = Some Example.B_a
  /\ instanceOf Example.classes_field Example.B_name Example.B_name = true.
Proof. repeat split; vm_compute; reflexivity. Qed.

(** X7: through the overload that takes [A], the Scala original of [C.x]
    returns the square of the constructor parameter, modulo 2^32 as [Int]
    arithmetic has it, for every parameter; the listed [C.x], which
    pushes the constant 11, returns 121 whatever the parameter. *)
Theorem overload_squares_constructor_parameter (n : Z) (k : nat) :
  invoke Example.classes_field (3 + k) (Example.heapWith n) (VRef 0) "x"
    "(Lio/treeverse/utils/A;)I" [VRef 1]
  = (Example.heapWith n, Normal (Some (VInt (wrap32 (n * n)))))
  /\ invoke Example.classes (3 + k) (Example.heapWith n) (VRef 0) "x"
    "(Lio/treeverse/utils/A;)I" [VRef 1]
  = (Example.heapWith n, Normal (Some (VInt 121))).
Proof.
  split; [|vm_compute; reflexivity].
  destruct classes_field_methods as (HxA & HxB & Ha & HB).
  cbn [Nat.add invoke]. rewrite heapWith_C. cbn [o_class]. rewrite HxA.
  cbn [m_code Example.C_x_A Example.method Example.synthesizedOverload exec lookup
       list_lookup].
  rewrite heapWith_B. cbn [o_class]. rewrite HB.
  replace (paramCount "(Lio/treeverse/utils/B;)I") with (Some 1) by reflexivity.
  cbn [drop take rev app]. rewrite heapWith_C. cbn [o_class]. rewrite HxB.
  cbn [m_code Example.C_x_field Example.method exec lookup list_lookup].
  rewrite heapWith_C. cbn [o_fields].
  replace (({["n" := VInt n]} : gmap string value) !! "n") with (Some (VInt n))
    by reflexivity.
  replace (paramCount "(I)I") with (Some 1) by reflexivity.
  cbn [drop take rev app]. rewrite heapWith_B. cbn [o_class]. rewrite Ha.
  reflexivity.
Qed.

(** X15: [computeETag] never looks at the part numbers: two lists whose
    parts carry, position by position, the same ETags give the same
    result (the same string or the same panic), whatever numbers the
    parts bear; the digests are taken in the order of the list. *)
Theorem computeETag_ignores_part_numbers (Parts Parts' : list (option Go.CompletedPart)) :
  Forall2 (fun p q => Go.ETag <$> p = Go.ETag <$> q) Parts Parts' ->
  Go.computeETag Parts = Go.computeETag Parts'.
Proof.
  intros H. unfold Go.computeETag.
  enough (Hc : forall acc, Go.collectETags Parts acc = Go.collectETags Parts' acc)
    by now rewrite Hc.
  induction H as [|p q ps qs Hpq _ IH]; intros acc; [reflexivity|].
  cbn [Go.collectETags]. destruct p as [p|], q as [q|]; try discriminate; [|reflexivity].
  injection Hpq as ->. destruct (Go.ETag q) as [e|]; [|reflexivity].
  destruct (Go.stripQuotes e); [apply IH|reflexivity].
Qed.

Lemma computeETag_ignores_part_numbers_witness :
  Go.computeETag [Some {| Go.ETag := Some "0cc175b9"; Go.PartNumber := Some 1%Z |};
                  Some {| Go.ETag := Some "90015098"; Go.PartNumber := Some 2%Z |}]
  = Go.computeETag [Some {| Go.ETag := Some "0cc175b9"; Go.PartNumber := Some 2%Z |};
                    Some {| Go.ETag := Some "90015098"; Go.PartNumber := None |}].
Proof.
  apply (computeETag_ignores_part_numbers
           [Some {| Go.ETag := Some "0cc175b9"; Go.PartNumber := Some 1%Z |};
            Some {| Go.ETag := Some "90015098"; Go.PartNumber := Some 2%Z |}]
           [Some {| Go.ETag := Some "0cc175b9"; Go.PartNumber := Some 2%Z |};
            Some {| Go.ETag := Some "90015098"; Go.PartNumber := None |}]).
  repeat constructor.
Defined.
